(** * grapple: query builder and paginated fetch loop

    A shallow embedding of [cmd/root.go] (time-window resolution, the
    freshness parser, the filter builder and the fetch loop) and of the
    request-building part of the vendored [internal/logadmin] client,
    followed by the properties of the specification.

    Go strings are byte strings ([string], one [ascii] per byte),
    [time.Duration] and [int] are 64-bit signed integers carried in [Z]
    with the wrap-around written out, Go maps are [gmap]s. *)

From Stdlib Require Import ZArith Lia Bool List Ascii String.
From stdpp Require Import base option list gmap strings.

Open Scope Z_scope.
#[local] Set Warnings "-clear-no-such-hyp".

(** ** Go values *)

Module Go.

(** *** 64-bit integers *)

Definition minInt64 : Z := - 2 ^ 63.
Definition maxInt64 : Z := 2 ^ 63 - 1.

(** Two's-complement wrap-around of [int64] arithmetic. *)
Definition wrap64 (z : Z) : Z := (z + 2 ^ 63) mod 2 ^ 64 - 2 ^ 63.

Definition inInt64 (z : Z) : Prop := minInt64 <= z <= maxInt64.

(** *** [time.Duration] constants, in nanoseconds *)

Definition Nanosecond : Z := 1.
Definition Microsecond : Z := 1000 * Nanosecond.
Definition Millisecond : Z := 1000 * Microsecond.
Definition Second : Z := 1000 * Millisecond.
Definition Minute : Z := 60 * Second.
Definition Hour : Z := 60 * Minute.

(** *** Bytes and strings *)

Definition dquote : ascii := "034"%char.
Definition backslash : ascii := "092"%char.
Definition newline : ascii := "010"%char.

Definition byte (c : ascii) : Z := Z.of_N (N_of_ascii c).

Definition isDigit (c : ascii) : bool := (48 <=? byte c) && (byte c <=? 57).

Definition isUpper (c : ascii) : bool := (65 <=? byte c) && (byte c <=? 90).

Fixpoint forallb_string (p : ascii -> bool) (s : string) : bool :=
  match s with
  | EmptyString => true
  | String c s' => p c && forallb_string p s'
  end.

(** [s != ""] *)
Definition nonEmpty (s : string) : bool :=
  match s with EmptyString => false | String _ _ => true end.

(** [strings.Contains(s, substr)] *)
Fixpoint Contains (s substr : string) : bool :=
  String.prefix substr s ||
  match s with
  | EmptyString => false
  | String _ s' => Contains s' substr
  end.

(** The value of a run of decimal digits, most significant first. *)
Fixpoint decimal (acc : Z) (s : string) : Z :=
  match s with
  | EmptyString => acc
  | String c s' => decimal (acc * 10 + (byte c - 48)) s'
  end.

(** [strconv.Atoi] on a 64-bit platform: an optional sign and at least one
    decimal digit; a syntax error or a value outside [int] gives [None]. *)
Definition Atoi (s : string) : option Z :=
  let '(neg, digits) :=
    match s with
    | String c s' =>
        if Ascii.eqb c "-" then (true, s')
        else if Ascii.eqb c "+" then (false, s')
        else (false, s)
    | EmptyString => (false, s)
    end in
  if nonEmpty digits && forallb_string isDigit digits then
    let n := if neg : bool then - decimal 0 digits else decimal 0 digits in
    if (minInt64 <=? n) && (n <=? maxInt64) then Some n else None
  else None.

(** [s] between double quotes. *)
Definition quoted (s : string) : string :=
  String dquote (s +:+ String dquote EmptyString).

(** No byte of [s] is a line feed. *)
Definition noNewline (s : string) : bool :=
  forallb_string (fun c => negb (Ascii.eqb c newline)) s.

(** Bytes that [%q] ([strconv.Quote]) copies as they are: printable ASCII
    other than the double quote and the backslash. *)
Definition plainChar (c : ascii) : bool :=
  (32 <=? byte c) && (byte c <=? 126)
  && negb (Ascii.eqb c dquote) && negb (Ascii.eqb c backslash).

Definition isASCII (c : ascii) : bool := byte c <? 128.

Definition lowerASCII (c : ascii) : ascii :=
  if isUpper c then ascii_of_N (N_of_ascii c + 32) else c.

Fixpoint map_string (f : ascii -> ascii) (s : string) : string :=
  match s with
  | EmptyString => EmptyString
  | String c s' => String (f c) (map_string f s')
  end.

(** *** Calls that may panic, and Go's [error] values

    An [error] is carried by its message; [None] is [nil]. *)

Definition error : Type := option string.

Inductive Outcome (A : Type) : Type :=
| Returns (a : A)
| Panics (msg : string).
Arguments Returns {A} a.
Arguments Panics {A} msg.

#[export] Instance Outcome_ret : MRet Outcome := fun A a => Returns a.
#[export] Instance Outcome_bind : MBind Outcome := fun A B f r =>
  match r with
  | Returns a => f a
  | Panics m => Panics m
  end.

(** [s[i]] on a slice: out of range panics. *)
Definition index {A} (s : list A) (i : nat) : Outcome A :=
  match s !! i with
  | Some a => Returns a
  | None => Panics "index out of range"
  end.

(** *** The standard library behind the program

    The functions of [time], [strings], [strconv] and [fmt] whose results
    depend on tables or on floating point are taken as an interface; the
    parts decided by ASCII alone are written out below it. *)

Class Std := {
  Time : Type;
  zeroTime : Time;                            (* var t time.Time *)
  IsZero : Time -> bool;                      (* t.IsZero() *)
  Add : Time -> Z -> Time;                    (* t.Add(d) *)
  UTC : Time -> Time;                         (* t.UTC() *)
  FormatRFC3339 : Time -> string;             (* t.Format(time.RFC3339) *)
  ParseRFC3339 : string -> Time * error;      (* time.Parse(time.RFC3339, s) *)
  ParseDuration : string -> Z * error;        (* time.ParseDuration(s) *)
  unicodeToLower : string -> string;          (* strings.Map(unicode.ToLower, s) *)
  quoteEscaping : string -> string            (* strconv.Quote when s needs escapes *)
}.

Section WithStd.
Context `{Std}.

(** [strings.ToLower]: the ASCII fast path, else the Unicode mapping. *)
Definition ToLower (s : string) : string :=
  if forallb_string isASCII s then map_string lowerASCII s
  else unicodeToLower s.

(** [%q] of a string, [strconv.Quote]. *)
Definition Quote (s : string) : string :=
  if forallb_string plainChar s then quoted s else quoteEscaping s.
End WithStd.

End Go.

(** ** The fragment of [regexp] used by the freshness pattern

    A backtracking matcher with leftmost-first (Perl) preference, as
    [regexp.MustCompile] gives: greedy repetition and greedy [?], the
    anchors matching only at the ends of the text, and [.] not matching a
    newline.  The text is read bytewise; the classes of the pattern used
    here are ASCII or "any but newline", for which bytes and runes give
    the same submatches. *)

Module Regexp.
Import Go.

Inductive cclass :=
| ClDigit                 (* \d *)
| ClAnyNotNL              (* .  *)
| ClLit (c : ascii).      (* a literal byte *)

Definition in_class (cl : cclass) (c : ascii) : bool :=
  match cl with
  | ClDigit => isDigit c
  | ClAnyNotNL => negb (Ascii.eqb c newline)
  | ClLit x => Ascii.eqb c x
  end.

Inductive regex :=
| ReBeginText                       (* ^ *)
| ReEndText                         (* $ *)
| ReOne (cl : cclass)
| RePlus (cl : cclass)              (* cl+ *)
| ReStar (cl : cclass)              (* cl* *)
| ReQuest (r : regex)               (* r?, also (?:r)? *)
| ReCat (r1 r2 : regex)
| ReCapture (i : nat) (r : regex).  (* (r), group number i *)

(** The first byte of [s], if any, is outside the class. *)
Definition stopsAt (cl : cclass) (s : string) : Prop :=
  match s with
  | EmptyString => True
  | String c _ => in_class cl c = false
  end.

(** A position of the matcher: bytes consumed, text left, groups so far. *)
Record mstate := MState {
  m_pos : nat;
  m_rest : string;
  m_caps : gmap nat string
}.

Section Matcher.
Context {R : Type}.

(** Greedy repetition of a class: the longest run first, then shorter. *)
Fixpoint rep (cl : cclass) (rest : string) (pos : nat)
    (k : nat -> string -> option R) : option R :=
  match rest with
  | String c rest' =>
      if in_class cl c then
        match rep cl rest' (S pos) k with
        | Some r => Some r
        | None => k pos rest
        end
      else k pos rest
  | EmptyString => k pos rest
  end.

Fixpoint rmatch (r : regex) (st : mstate) (k : mstate -> option R)
    : option R :=
  match r with
  | ReBeginText => if Nat.eqb (m_pos st) 0 then k st else None
  | ReEndText =>
      match m_rest st with
      | EmptyString => k st
      | String _ _ => None
      end
  | ReOne cl =>
      match m_rest st with
      | String c rest' =>
          if in_class cl c
          then k (MState (S (m_pos st)) rest' (m_caps st))
          else None
      | EmptyString => None
      end
  | RePlus cl =>
      match m_rest st with
      | String c rest' =>
          if in_class cl c
          then rep cl rest' (S (m_pos st))
                 (fun p s => k (MState p s (m_caps st)))
          else None
      | EmptyString => None
      end
  | ReStar cl =>
      rep cl (m_rest st) (m_pos st) (fun p s => k (MState p s (m_caps st)))
  | ReQuest r' =>
      match rmatch r' st k with
      | Some x => Some x
      | None => k st
      end
  | ReCat r1 r2 => rmatch r1 st (fun st' => rmatch r2 st' k)
  | ReCapture i r' =>
      rmatch r' st (fun st' =>
        k (MState (m_pos st') (m_rest st')
             (<[i := substring 0 (m_pos st' - m_pos st) (m_rest st)]>
                (m_caps st'))))
  end.
End Matcher.

Definition group (caps : gmap nat string) (i : nat) : string :=
  default EmptyString (caps !! i).

(** The leftmost match: try each start position in turn. *)
Fixpoint search (re : regex) (ngroups : nat) (pos : nat) (rest : string)
    : list string :=
  match rmatch re (MState pos rest ∅)
          (fun st' => Some (substring 0 (m_pos st' - pos) rest
                            :: map (group (m_caps st')) (seq 1 ngroups))) with
  | Some m => m
  | None =>
      match rest with
      | String _ rest' => search re ngroups (S pos) rest'
      | EmptyString => []
      end
  end.

(** [re.FindStringSubmatch(s)]: the whole match and the groups, or the nil
    slice when nothing matches. *)
Definition FindStringSubmatch (re : regex) (ngroups : nat) (s : string)
    : list string :=
  search re ngroups 0%nat s.

End Regexp.

(** ** [internal/logadmin]: building the list request *)

Module Logadmin.
Import Go.

(** The fields of [logpb.ListLogEntriesRequest] that the options set. *)
Record ListLogEntriesRequest := {
  ResourceNames : list string;
  Filter : string;
  OrderBy : string;
  PageSize : Z
}.

(** The implementations of the [EntriesOption] interface. *)
Inductive EntriesOption :=
| projectIDs (p : list string)
| resourceNames (rn : list string)
| filter (f : string)
| newestFirst
| pageSize (p : Z).

Definition set (opt : EntriesOption) (r : ListLogEntriesRequest)
    : ListLogEntriesRequest :=
  match opt with
  | projectIDs p =>
      {| ResourceNames := map (fun v => "projects/" +:+ v) p;
         Filter := Filter r; OrderBy := OrderBy r; PageSize := PageSize r |}
  | resourceNames rn =>
      {| ResourceNames := rn;
         Filter := Filter r; OrderBy := OrderBy r; PageSize := PageSize r |}
  | filter f =>
      {| ResourceNames := ResourceNames r;
         Filter := f; OrderBy := OrderBy r; PageSize := PageSize r |}
  | newestFirst =>
      {| ResourceNames := ResourceNames r;
         Filter := Filter r; OrderBy := "timestamp desc";
         PageSize := PageSize r |}
  | pageSize p =>
      {| ResourceNames := ResourceNames r;
         Filter := Filter r; OrderBy := OrderBy r; PageSize := p |}
  end.

(** The request after every option was applied, in order. *)
Definition applyOptions (parent : string) (opts : list EntriesOption)
    : ListLogEntriesRequest :=
  fold_left (fun req opt => set opt req) opts
    {| ResourceNames := [parent]; Filter := EmptyString;
       OrderBy := EmptyString; PageSize := 0 |}.

Section WithStd.
Context `{Std}.

(** [now] is the reading of [time.Now()]. *)
Definition defaultTimestampFilter (now : Time) (filter : string) : string :=
  let dayAgo := UTC (Add now (wrap64 (- (24 * Hour)))) in
  if Nat.eqb (String.length filter) 0 then
    "timestamp >= " +:+ quoted (FormatRFC3339 dayAgo)
  else if negb (Contains (ToLower filter) "timestamp") then
    filter +:+ " AND timestamp >= " +:+ quoted (FormatRFC3339 dayAgo)
  else filter.

Definition listLogEntriesRequest (now : Time) (parent : string)
    (opts : list EntriesOption) : ListLogEntriesRequest :=
  let req := applyOptions parent opts in
  {| ResourceNames := ResourceNames req;
     Filter := defaultTimestampFilter now (Filter req);
     OrderBy := OrderBy req;
     PageSize := PageSize req |}.
End WithStd.

(** [NewClient] keeps the parent, qualified when it names no collection. *)
Definition clientParent (parent : string) : string :=
  if Contains parent "/" then parent else "projects/" +:+ parent.

End Logadmin.

(** ** [cmd]: the query builder *)

Module Cmd.
Import Go Regexp.

(** The time flags of the command, as [cmd.Flag(name).Value.String()]. *)
Record Flags := {
  flag_freshness : string;
  flag_from : string;
  flag_to : string
}.

(** The pattern compiled in [parseFreshness]: anchored at both ends, an
    optional non-capturing group made of one or more digits (group 1) and
    the letter d, then any run of bytes other than newline (group 2). *)
Definition freshnessRe : regex :=
  ReCat ReBeginText
    (ReCat (ReQuest (ReCat (ReCapture 1 (RePlus ClDigit)) (ReOne (ClLit "d"))))
       (ReCat (ReCapture 2 (ReStar ClAnyNotNL)) ReEndText)).

Section WithStd.
Context `{Std}.

(** [fmt.Errorf("invalid freshness %q", expression)] *)
Definition invalidFreshness (expression : string) : error :=
  Some ("invalid freshness " +:+ Quote expression).

Definition parseFreshness (expression : string) : Outcome (Z * error) :=
  if String.eqb expression EmptyString then
    Returns (0, invalidFreshness expression)
  else
    let match_ := FindStringSubmatch freshnessRe 2 expression in
    let total := 0 in
    (* the second [if] of the function, entered with the total so far *)
    let remainder (total : Z) : Outcome (Z * error) :=
      m2 ← index match_ 2;
      if nonEmpty m2 then
        match ParseDuration m2 with
        | (_, Some _) => Returns (0, invalidFreshness expression)
        | (other, None) => Returns (wrap64 (total + other), None)
        end
      else Returns (total, None) in
    m1 ← index match_ 1;
    if nonEmpty m1 then
      match Atoi m1 with
      | None => Returns (0, invalidFreshness expression)
      | Some days =>
          remainder (wrap64 (total + wrap64 (wrap64 (days * 24) * Hour)))
      end
    else remainder total.

(** [parseFreshness] returns an error for [s]. *)
Definition freshnessRejected (s : string) : Prop :=
  exists d e, parseFreshness s = Returns (d, Some e).

(** [time.Parse(time.RFC3339, s)] returns an error. *)
Definition invalidRFC3339 (s : string) : Prop := snd (ParseRFC3339 s) <> None.

(** [now] is the reading of [time.Now()] on the freshness path. *)
Definition determineTimeWindow (now : Time) (cmd : Flags)
    : Outcome (Time * Time * error) :=
  let from := zeroTime in
  let to := zeroTime in
  let freshness := flag_freshness cmd in
  let fromFlag := flag_from cmd in
  let toFlag := flag_to cmd in
  if nonEmpty freshness then
    if nonEmpty fromFlag || nonEmpty toFlag then
      Returns (from, to,
               Some "--freshness cannot be used together with --from or --to")
    else
      r ← parseFreshness freshness;
      match r with
      | (_, Some e) => Returns (from, to, Some e)
      | (dur, None) =>
          let to := now in
          let from := Add to (wrap64 (- dur)) in
          Returns (from, to, None)
      end
  else if nonEmpty fromFlag && nonEmpty toFlag then
    match ParseRFC3339 fromFlag with
    | (from, Some e) => Returns (from, to, Some ("invalid --from: " +:+ e))
    | (from, None) =>
        match ParseRFC3339 toFlag with
        | (to, Some e) => Returns (from, to, Some ("invalid --to: " +:+ e))
        | (to, None) => Returns (from, to, None)
        end
    end
  else if negb (nonEmpty fromFlag) && negb (nonEmpty toFlag) then
    Returns (from, to, None)
  else
    Returns (from, to,
             Some "either specify both --from and --to, or neither").

Definition buildFilter (from to : Time) (userFilter : string) : string :=
  let timeFilter :=
    if negb (IsZero from) && negb (IsZero to) then
      "timestamp >= " +:+ Quote (FormatRFC3339 from)
        +:+ " AND timestamp <= " +:+ Quote (FormatRFC3339 to)
    else EmptyString in
  if String.eqb timeFilter EmptyString then userFilter
  else if String.eqb userFilter EmptyString then timeFilter
  else "(" +:+ userFilter +:+ ") AND " +:+ timeFilter.

(** The options [Run] passes to the fetch loop. *)
Definition entriesOptions (allFilters : string) (newestFirst : bool)
    : list Logadmin.EntriesOption :=
  [Logadmin.pageSize 1000; Logadmin.filter allFilters]
    ++ (if newestFirst then [Logadmin.newestFirst] else []).

(** [Run] up to the request of the first cursor: the project, the time
    window, the filter, the options and [client.Entries], with
    [logadmin.NewClient] taken to succeed.  [args] are the positional
    arguments, [order] is the configured order, [now] and [now'] are the
    readings of the clock in [determineTimeWindow] and in
    [defaultTimestampFilter]; an [inl] is the message the command exits
    with. *)
Definition runRequest (now now' : Time) (projectId order : string)
    (cmd : Flags) (args : list string)
    : Outcome (string + Logadmin.ListLogEntriesRequest) :=
  if String.eqb projectId EmptyString then
    Returns (inl ("Error: required flag " +:+ quoted "project"
                    +:+ " not set"))
  else
    r ← determineTimeWindow now cmd;
    match r with
    | (_, _, Some e) => Returns (inl e)
    | (from, to, None) =>
        let filter :=
          match args with
          | a :: _ => a
          | [] => EmptyString
          end in
        let allFilters := buildFilter from to filter in
        let newestFirst := String.eqb order "desc" in
        let opts := entriesOptions allFilters newestFirst in
        Returns (inr (Logadmin.listLogEntriesRequest now'
                        (Logadmin.clientParent projectId) opts))
    end.

End WithStd.

End Cmd.

(** ** An instance of the library interface

    UTC instants at a resolution of one second, counted from the zero
    instant (January 1 of year 1, 00:00:00 UTC), printed and read in the
    form [YYYY-MM-DDTHH:MM:SSZ]; durations written with whole numbers.
    It serves to run the definitions on concrete inputs. *)

Module Fixture.
Import Go.

Definition digitChar (d : Z) : ascii := ascii_of_N (Z.to_N (48 + d mod 10)).

Fixpoint pad (width : nat) (n : Z) (acc : string) : string :=
  match width with
  | O => acc
  | S w => pad w (n / 10) (String (digitChar n) acc)
  end.

(** Year, month and day of the proleptic Gregorian calendar for a count of
    days since January 1 of year 1. *)
Definition civil (days : Z) : Z * Z * Z :=
  let z := days + 306 in
  let era := z / 146097 in
  let doe := z mod 146097 in
  let yoe := (doe - doe / 1460 + doe / 36524 - doe / 146096) / 365 in
  let doy := doe - (365 * yoe + yoe / 4 - yoe / 100) in
  let mp := (5 * doy + 2) / 153 in
  let d := doy - (153 * mp + 2) / 5 + 1 in
  let m := if mp <? 10 then mp + 3 else mp - 9 in
  (yoe + era * 400 + (if m <=? 2 then 1 else 0), m, d).

Definition daysFromCivil (y m d : Z) : Z :=
  let y' := if m <=? 2 then y - 1 else y in
  let era := y' / 400 in
  let yoe := y' mod 400 in
  let doy := (153 * (if 2 <? m then m - 3 else m + 9) + 2) / 5 + d - 1 in
  era * 146097 + (yoe * 365 + yoe / 4 - yoe / 100 + doy) - 306.

Definition format (t : Z) : string :=
  let '(y, m, d) := civil (t / 86400) in
  let sod := t mod 86400 in
  pad 4 y (String "-" (pad 2 m (String "-" (pad 2 d (String "T"
    (pad 2 (sod / 3600) (String ":" (pad 2 (sod / 60 mod 60) (String ":"
      (pad 2 (sod mod 60) "Z"))))))))))%string.

Definition field (s : string) (start len : nat) : option Z :=
  let f := substring start len s in
  if Nat.eqb (String.length f) len && forallb_string isDigit f
  then Some (decimal 0 f) else None.

Definition parse (s : string) : Z * error :=
  let bad : Z * error := (0, Some ("cannot parse " +:+ s)) in
  if Nat.eqb (String.length s) 20
     && String.eqb (substring 4 1 s) "-" && String.eqb (substring 7 1 s) "-"
     && String.eqb (substring 10 1 s) "T" && String.eqb (substring 13 1 s) ":"
     && String.eqb (substring 16 1 s) ":" && String.eqb (substring 19 1 s) "Z"
  then
    match field s 0 4, field s 5 2, field s 8 2,
          field s 11 2, field s 14 2, field s 17 2 with
    | Some y, Some m, Some d, Some hh, Some mm, Some ss =>
        if (1 <=? m) && (m <=? 12) && (1 <=? d) && (d <=? 31)
           && (hh <? 24) && (mm <? 60) && (ss <? 60)
        then (daysFromCivil y m d * 86400 + hh * 3600 + mm * 60 + ss, None)
        else bad
    | _, _, _, _, _, _ => bad
    end
  else bad.

(** The prefix of [s] whose bytes satisfy [p], and the rest. *)
Fixpoint span (p : ascii -> bool) (s : string) : string * string :=
  match s with
  | String c s' =>
      if p c then let '(a, b) := span p s' in (String c a, b)
      else (EmptyString, s)
  | EmptyString => (EmptyString, EmptyString)
  end.

Definition unitOf (u : string) : option Z :=
  if String.eqb u "ns" then Some Nanosecond
  else if String.eqb u "us" then Some Microsecond
  else if String.eqb u "ms" then Some Millisecond
  else if String.eqb u "s" then Some Second
  else if String.eqb u "m" then Some Minute
  else if String.eqb u "h" then Some Hour
  else None.

Fixpoint components (fuel : nat) (s : string) (acc : Z) : option Z :=
  match fuel, s with
  | _, EmptyString => Some acc
  | O, _ => None
  | S fuel', _ =>
      let '(ds, rest) := span isDigit s in
      let '(u, rest') :=
        span (fun c => negb (isDigit c || Ascii.eqb c ".")) rest in
      match nonEmpty ds, unitOf u with
      | true, Some unit =>
          let acc' := acc + decimal 0 ds * unit in
          if acc' <=? maxInt64 then components fuel' rest' acc' else None
      | _, _ => None
      end
  end.

Definition parseDuration (s : string) : Z * error :=
  let '(neg, body) :=
    match s with
    | String c s' =>
        if Ascii.eqb c "-" then (true, s')
        else if Ascii.eqb c "+" then (false, s')
        else (false, s)
    | EmptyString => (false, s)
    end in
  let bad : Z * error := (0, Some ("time: invalid duration " +:+ s)) in
  if String.eqb body "0" then (0, None)
  else if String.eqb body EmptyString then bad
  else
    match components (String.length body) body 0 with
    | Some d => (if neg : bool then - d else d, None)
    | None => bad
    end.

(** Midnight of January 1 and of January 2, 2024. *)
Definition jan1 : Z := 63839664000.
Definition jan2 : Z := 63839750400.

Definition dayWindow : Cmd.Flags :=
  {| Cmd.flag_freshness := EmptyString;
     Cmd.flag_from := "2024-01-01T00:00:00Z";
     Cmd.flag_to := "2024-01-02T00:00:00Z" |}.

Definition noFlags : Cmd.Flags :=
  {| Cmd.flag_freshness := EmptyString;
     Cmd.flag_from := EmptyString;
     Cmd.flag_to := EmptyString |}.

#[export] Instance std : Std := {|
  Time := Z;
  zeroTime := 0;
  IsZero := fun t => t =? 0;
  Add := fun t d => t + d / Second;
  UTC := fun t => t;
  FormatRFC3339 := format;
  ParseRFC3339 := parse;
  ParseDuration := parseDuration;
  unicodeToLower := fun s => s;
  quoteEscaping := quoted
|}.

End Fixture.

(** ** [cmd]: the paginated fetch loop *)

Module FetchLoop.
Import Go.

(** The gRPC status codes. *)
Inductive Code :=
| OK | Canceled | Unknown | InvalidArgument | DeadlineExceeded | NotFound
| AlreadyExists | PermissionDenied | ResourceExhausted | FailedPrecondition
| Aborted | OutOfRange | Unimplemented | Internal | Unavailable | DataLoss
| Unauthenticated.

(** What the loop reads of an [apierror.APIError]. *)
Record APIError := {
  Reason : string;
  Metadata : gmap string string
}.

(** What the loop observes of an error returned by [pager.NextPage]: its
    message, whether [errors.Is] finds [context.Canceled] in it, the
    [APIError] it is when the type assertion succeeds, and the code that
    [status.FromError] reports when it succeeds. *)
Record PageError := {
  err_Error : string;
  err_isCanceled : bool;
  err_APIError : option APIError;
  err_status : option Code
}.

(** [errors.New(msg)] *)
Definition errorsNew (msg : string) : PageError :=
  {| err_Error := msg; err_isCanceled := false;
     err_APIError := None; err_status := None |}.

Definition noMoreItems : string := "no more items in iterator".

Definition unauthenticatedMessage : string :=
  "unauthenticated, please run `gcloud auth application-default login` and try again".

(** The calls of [log.Printf] and [log.Println] in the loop, one
    constructor per call site. *)
Inductive LogLine :=
| LogRateLimitQuota (quotaLimit quotaLimitValue : string)
| LogRateLimit
| LogValue (msg : string)
| LogDot
| LogRateLimitExpired
| LogMarshalError (insertId err : string).

(** The text each call writes. *)
Definition render (l : LogLine) : string :=
  match l with
  | LogRateLimitQuota q v =>
      "Rate limit exceeded (" +:+ q +:+ ": " +:+ v +:+ "), sleeping..."
  | LogRateLimit => "Rate limit exceeded, sleeping..."
  | LogValue msg => msg
  | LogDot => "."
  | LogRateLimitExpired => "Rate limit expired"
  | LogMarshalError id err =>
      "Error marshaling log entry (" +:+ id +:+ "): " +:+ err
  end.

(** The effects of the loop, in the order they happen. *)
Inductive Event :=
| EvEntries (opts : list Logadmin.EntriesOption)  (* client.Entries(ctx, opts...) *)
| EvNewPager (pageSize : Z) (token : string)      (* iterator.NewPager(it, n, token) *)
| EvNextPage (token : string)                     (* pager.NextPage, at the pager's token *)
| EvLog (l : LogLine)
| EvSleep (d : Z)                                 (* time.Sleep(d) *)
| EvPrintln (line : string).                      (* fmt.Println on standard output *)

(** A pager: its page size and the token its next request carries. *)
Record Pager := {
  pg_pageSize : Z;
  pg_token : string
}.

(** What [pager.NextPage(&entries)] gives back. *)
Inductive NextPageResult (LogEntry : Type) :=
| Page (entries : list LogEntry) (nextToken : string)
| Failed (err : PageError).
Arguments Page {LogEntry} entries nextToken.
Arguments Failed {LogEntry} err.

(** The variables of [fetchAndProcessLogs] inside the inner loop, with the
    effects so far. *)
Record Loop := {
  rateLimited : bool;
  currentToken : string;
  pager : Pager;
  trace : list Event
}.

(** How an iteration of the inner loop ends. *)
Inductive Control :=
| Continue                    (* the next iteration of the inner loop *)
| Break                       (* break: back to the head of the outer loop *)
| BreakOuter                  (* break outer: return nil *)
| Return (err : PageError).   (* return err *)

(** The loop as far as the answers reach. *)
Inductive Run :=
| Waiting (st : Loop)                          (* in NextPage, no answer left *)
| Finished (err : option PageError) (st : Loop).

Definition final (r : Run) : Loop :=
  match r with
  | Waiting st => st
  | Finished _ st => st
  end.

Definition handleRateLimitError (err : PageError) (rateLimited : bool)
    : bool * list Event :=
  match err_APIError err with
  | Some apiErr =>
      if String.eqb (Reason apiErr) "RATE_LIMIT_EXCEEDED" then
        (true,
         (if negb rateLimited then
            let metadata := Metadata apiErr in
            let quotaLimit := default EmptyString (metadata !! "quota_limit") in
            let quotaLimitValue :=
              default EmptyString (metadata !! "quota_limit_value") in
            if nonEmpty quotaLimit && nonEmpty quotaLimitValue
            then [EvLog (LogRateLimitQuota quotaLimit quotaLimitValue)]
            else [EvLog LogRateLimit; EvLog (LogValue (err_Error err))]
          else [EvLog LogDot])
         ++ [EvSleep (1 * Second)])
      else (false, [])
  | None => (false, [])
  end.

Section WithEntries.
Context {LogEntry : Type}.
(** [entry.InsertId] *)
Context (InsertId : LogEntry -> string).
(** [protojson.MarshalOptions{Multiline: false}.Marshal(entry)]: the bytes,
    or the message of the error. *)
Context (Marshal : LogEntry -> string + string).
(** The options the loop was called with. *)
Context (opts : list Logadmin.EntriesOption).

(** The body of [for _, entry := range entries]. *)
Definition emit (entry : LogEntry) : list Event :=
  match Marshal entry with
  | inr err => [EvLog (LogMarshalError (InsertId entry) err)]
  | inl jsonBytes => [EvPrintln jsonBytes]
  end.

(** The head of the outer loop: a new iterator and a pager on it that
    starts at [currentToken]. *)
Definition openCursor (rateLimited : bool) (currentToken : string)
    (trace : list Event) : Loop :=
  {| rateLimited := rateLimited;
     currentToken := currentToken;
     pager := {| pg_pageSize := 1000; pg_token := currentToken |};
     trace := trace ++ [EvEntries opts; EvNewPager 1000 currentToken] |}.

(** One iteration of the inner loop, given what [NextPage] returned. *)
Definition body (st : Loop) (result : NextPageResult LogEntry)
    : Control * Loop :=
  let tr := trace st ++ [EvNextPage (pg_token (pager st))] in
  match result with
  | Failed err =>
      if err_isCanceled err || String.eqb (err_Error err) noMoreItems then
        (BreakOuter,
         {| rateLimited := rateLimited st; currentToken := currentToken st;
            pager := pager st; trace := tr |})
      else
        let '(limited, evs) := handleRateLimitError err (rateLimited st) in
        let st' :=
          {| rateLimited := limited; currentToken := currentToken st;
             pager := pager st; trace := tr ++ evs |} in
        if limited then (Break, st')
        else
          match err_status err with
          | Some Unauthenticated => (Return (errorsNew unauthenticatedMessage), st')
          | _ => (Return err, st')
          end
  | Page entries nextToken =>
      let pager' :=
        {| pg_pageSize := pg_pageSize (pager st); pg_token := nextToken |} in
      let tr1 :=
        tr ++ (if rateLimited st then [EvLog LogRateLimitExpired] else []) in
      let tr2 := tr1 ++ flat_map emit entries in
      if String.eqb nextToken EmptyString then
        (BreakOuter,
         {| rateLimited := false; currentToken := currentToken st;
            pager := pager'; trace := tr2 |})
      else
        (Continue,
         {| rateLimited := false; currentToken := nextToken;
            pager := pager'; trace := tr2 |})
  end.

(** The two loops, driven by the answers to the successive calls of
    [NextPage]; an answer may depend on the token the pager asks for. *)
Fixpoint loop (answers : list (string -> NextPageResult LogEntry)) (st : Loop)
    : Run :=
  match answers with
  | [] => Waiting st
  | answer :: answers' =>
      match body st (answer (pg_token (pager st))) with
      | (Continue, st') => loop answers' st'
      | (Break, st') =>
          loop answers'
            (openCursor (rateLimited st') (currentToken st') (trace st'))
      | (BreakOuter, st') => Finished None st'
      | (Return err, st') => Finished (Some err) st'
      end
  end.

Definition fetchAndProcessLogs
    (answers : list (string -> NextPageResult LogEntry)) : Run :=
  loop answers (openCursor false EmptyString []).

End WithEntries.

(** *** Reading a trace *)

(** The lines written to standard output. *)
Definition stdout (tr : list Event) : list string :=
  flat_map (fun ev => match ev with EvPrintln l => [l] | _ => [] end) tr.

(** The lines written to the log. *)
Definition logged (tr : list Event) : list LogLine :=
  flat_map (fun ev => match ev with EvLog l => [l] | _ => [] end) tr.

(** The tokens of the page requests. *)
Definition requested (tr : list Event) : list string :=
  flat_map (fun ev => match ev with EvNextPage t => [t] | _ => [] end) tr.

(** The pauses taken. *)
Definition slept (tr : list Event) : list Z :=
  flat_map (fun ev => match ev with EvSleep d => [d] | _ => [] end) tr.

Definition isExceeded (l : LogLine) : bool :=
  match l with
  | LogRateLimitQuota _ _ | LogRateLimit => true
  | _ => false
  end.

Definition isExpired (l : LogLine) : bool :=
  match l with
  | LogRateLimitExpired => true
  | _ => false
  end.

(** How many of the lines satisfy [p]. *)
Definition countLines (p : LogLine -> bool) (lines : list LogLine) : nat :=
  length (List.filter p lines).

Definition isMarshalError (l : LogLine) : bool :=
  match l with
  | LogMarshalError _ _ => true
  | _ => false
  end.

(** The error is an [APIError] whose reason is RATE_LIMIT_EXCEEDED. *)
Definition hasRateLimitReason (err : PageError) : bool :=
  match err_APIError err with
  | Some apiErr => String.eqb (Reason apiErr) "RATE_LIMIT_EXCEEDED"
  | None => false
  end.

(** The error is neither a cancellation nor the exhaustion sentinel, and
    it has the rate-limit reason: the loop treats it as a rate limit. *)
Definition isRateLimit (err : PageError) : bool :=
  negb (err_isCanceled err) && negb (String.eqb (err_Error err) noMoreItems)
  && hasRateLimitReason err.

(** The faults of a schedule are all rate limits. *)
Definition onlyRateLimits (faults : list (option PageError)) : Prop :=
  Forall (fun f => match f with
                   | Some err => isRateLimit err = true
                   | None => True
                   end) faults.

(** The schedule with its faults removed. *)
Definition withoutFaults (faults : list (option PageError))
    : list (option PageError) :=
  List.filter (fun f => match f with None => true | Some _ => false end) faults.

(** Two states of the loop stand at the same page with the same output. *)
Definition inStep (s1 s2 : Loop) : Prop :=
  currentToken s1 = currentToken s2
  /\ pg_token (pager s1) = currentToken s1
  /\ pg_token (pager s2) = currentToken s2
  /\ stdout (trace s1) = stdout (trace s2).

(** Two runs ended the same way with the same output. *)
Definition sameOutcome (r1 r2 : Run) : Prop :=
  match r1, r2 with
  | Waiting s1, Waiting s2 => inStep s1 s2
  | Finished None s1, Finished None s2 =>
      stdout (trace s1) = stdout (trace s2)
  | _, _ => False
  end.

(** A backend whose pages are determined by the token, with the faults of
    a schedule injected: one entry of the schedule per call of [NextPage]. *)
Definition answersOf {LogEntry : Type}
    (backend : string -> list LogEntry * string)
    (faults : list (option PageError))
    : list (string -> NextPageResult LogEntry) :=
  map (fun f token =>
         match f with
         | Some err => Failed err
         | None => let '(entries, next) := backend token in Page entries next
         end) faults.

End FetchLoop.

(** ** Concrete entries, errors and a backend for running the loop *)

Module LoopFixture.
Import Go FetchLoop.

Record Entry := {
  insertId : string;
  payload : string;
  valid : bool
}.

Definition marshal (e : Entry) : string + string :=
  if valid e then inl (payload e)
  else inr "proto: field contains invalid UTF-8".

Definition e1 : Entry := {| insertId := "a1"; payload := "{1}"; valid := true |}.
Definition e2 : Entry := {| insertId := "a2"; payload := "{2}"; valid := false |}.
Definition e3 : Entry := {| insertId := "a3"; payload := "{3}"; valid := true |}.
Definition e4 : Entry := {| insertId := "a4"; payload := "{4}"; valid := true |}.

Definition options : list Logadmin.EntriesOption :=
  [Logadmin.pageSize 1000; Logadmin.filter "severity>=ERROR";
   Logadmin.newestFirst].

(** Three pages, chained by the tokens [t1] and [t2]. *)
Definition backend (token : string) : list Entry * string :=
  if String.eqb token EmptyString then ([e1; e2], "t1")
  else if String.eqb token "t1" then ([e3], "t2")
  else if String.eqb token "t2" then ([e4], EmptyString)
  else ([], EmptyString).

Definition quotaError : PageError :=
  {| err_Error := "rpc error: code = ResourceExhausted desc = Quota exceeded";
     err_isCanceled := false;
     err_APIError :=
       Some {| Reason := "RATE_LIMIT_EXCEEDED";
               Metadata := <["quota_limit" := "ReadRequestsPerMinutePerProject"]>
                             (<["quota_limit_value" := "60"]> ∅) |};
     err_status := Some ResourceExhausted |}.

Definition bareQuotaError : PageError :=
  {| err_Error := "rpc error: code = ResourceExhausted desc = Quota exceeded";
     err_isCanceled := false;
     err_APIError := Some {| Reason := "RATE_LIMIT_EXCEEDED"; Metadata := ∅ |};
     err_status := Some ResourceExhausted |}.

Definition canceledError : PageError :=
  {| err_Error := "context canceled"; err_isCanceled := true;
     err_APIError := None; err_status := None |}.

(** The error of a request whose context was cancelled while it was in
    flight: a gRPC status with the code Canceled, as an [APIError] without
    a reason.  [errors.Is] does not find [context.Canceled] in it. *)
Definition grpcCanceledError : PageError :=
  {| err_Error := "rpc error: code = Canceled desc = context canceled";
     err_isCanceled := false;
     err_APIError := Some {| Reason := EmptyString; Metadata := ∅ |};
     err_status := Some Canceled |}.

Definition doneError : PageError :=
  {| err_Error := noMoreItems; err_isCanceled := false;
     err_APIError := None; err_status := None |}.

Definition unauthenticatedError : PageError :=
  {| err_Error := "rpc error: code = Unauthenticated desc = invalid credentials";
     err_isCanceled := false;
     err_APIError := None;
     err_status := Some Unauthenticated |}.

Definition start : Loop := openCursor options false EmptyString [].

(** A page, two rate limits in a row, then the remaining pages. *)
Definition schedule : list (option PageError) :=
  [None; Some quotaError; Some bareQuotaError; None; None].

End LoopFixture.

(** ** [internal/logadmin]: the client, the kinds of option, one fetch *)

Module LogadminClient.
Import Go.

(** The fields of [Client] that the package reads. *)
Record Client := {
  parent : string;
  closed : bool
}.

(** [NewClient]; [dial] is the error of [vkit.NewClient]. *)
Definition NewClient (dial : error) (parent : string)
    : option Client * error :=
  let parent :=
    if negb (Contains parent "/") then "projects/" +:+ parent else parent in
  match dial with
  | Some err => (None, Some err)
  | None => (Some {| parent := parent; closed := false |}, None)
  end.

(** [c.Close()]; [lClose] is what [c.lClient.Close()] returns if it is
    called, and the last component counts its calls. *)
Definition Close (lClose : error) (c : Client) : error * Client * nat :=
  if closed c then (None, c, 0%nat)
  else (lClose, {| parent := parent c; closed := true |}, 1%nat).

(** [Close] called once for each element of [results], the results that
    the underlying client would give. *)
Fixpoint closeAll (results : list error) (c : Client)
    : list error * Client * nat :=
  match results with
  | [] => ([], c, 0%nat)
  | r :: rest =>
      let '(err, c', n) := Close r c in
      let '(errs, c'', m) := closeAll rest c' in
      (err :: errs, c'', (n + m)%nat)
  end.

(** Which field an option sets. *)
Definition isFilter (opt : Logadmin.EntriesOption) : bool :=
  match opt with
  | Logadmin.filter _ => true
  | _ => false
  end.

Definition setsResourceNames (opt : Logadmin.EntriesOption) : bool :=
  match opt with
  | Logadmin.projectIDs _ | Logadmin.resourceNames _ => true
  | _ => false
  end.

Definition isNewestFirst (opt : Logadmin.EntriesOption) : bool :=
  match opt with
  | Logadmin.newestFirst => true
  | _ => false
  end.

(** *** [iterFetch] and [EntryIterator.fetch]

    [iterFetch] works on a page info and a [next] function that share
    state; the state is passed along, and the page info is taken through
    its [Remaining], its [Token] and the assignment of [MaxSize] and
    [Token]. *)

Section IterFetch.
Context {State : Type}.
(** [pi.MaxSize = pageSize; pi.Token = pageToken] *)
Context (setPage : Z -> string -> State -> State).
(** [pi.Remaining()] *)
Context (Remaining : State -> Z).
(** [pi.Token] *)
Context (Token : State -> string).
Context (next : State -> error * State).

(** [for pi.Remaining() > 0], as far as the fuel reaches. *)
Fixpoint collect (fuel : nat) (s : State) : option (error * State) :=
  if 0 <? Remaining s then
    match fuel with
    | O => None
    | S fuel' =>
        match next s with
        | (Some err, s') => Some (Some err, s')
        | (None, s') => collect fuel' s'
        end
    end
  else Some (None, s).

Definition iterFetch (fuel : nat) (pageSize : Z) (pageToken : string)
    (s : State) : option (string * error * State) :=
  let s := setPage pageSize pageToken s in
  match next s with
  | (Some err, s') => Some (EmptyString, Some err, s')
  | (None, s') =>
      match collect fuel s' with
      | None => None
      | Some (Some err, s'') => Some (EmptyString, Some err, s'')
      | Some (None, s'') => Some (Token s'', None, s'')
      end
  end.

End IterFetch.

Section WithInner.
Context {Inner Item : Type}.
(** [it.it.Next()] of the generated client: the item, or the message of
    the error. *)
Context (innerNext : Inner -> (Item + string) * Inner).
(** [Remaining], [Token] and the assignment on [it.it.PageInfo()]. *)
Context (innerRemaining : Inner -> Z).
Context (innerToken : Inner -> string).
Context (innerSetPage : Z -> string -> Inner -> Inner).

Record EntryIterator := {
  it : Inner;
  items : list Item
}.

(** The function that [fetch] passes as [next]. *)
Definition fetchNext (e : EntryIterator) : error * EntryIterator :=
  match innerNext (it e) with
  | (inr err, inner) => (Some err, {| it := inner; items := items e |})
  | (inl item, inner) =>
      (None, {| it := inner; items := items e ++ [item] |})
  end.

(** While items remain in its buffer, the inner iterator hands out one
    and keeps the rest. *)
Definition handsOut : Prop :=
  forall i, 0 < innerRemaining i ->
    exists x i', innerNext i = (inl x, i')
                 /\ innerRemaining i' = innerRemaining i - 1.

(** [it.fetch(pageSize, pageToken)] *)
Definition fetch (fuel : nat) (pageSize : Z) (pageToken : string)
    (e : EntryIterator) : option (string * error * EntryIterator) :=
  iterFetch
    (fun size token e =>
       {| it := innerSetPage size token (it e); items := items e |})
    (fun e => innerRemaining (it e))
    (fun e => innerToken (it e))
    fetchNext fuel pageSize pageToken e.

End WithInner.

End LogadminClient.

(** ** More readings of a trace *)

Module LoopReading.
Import Go FetchLoop.

(** The options of the cursors opened. *)
Definition opened (tr : list Event) : list (list Logadmin.EntriesOption) :=
  flat_map (fun ev => match ev with EvEntries o => [o] | _ => [] end) tr.

(** The page size and the start token of the pagers made. *)
Definition pagers (tr : list Event) : list (Z * string) :=
  flat_map (fun ev => match ev with EvNewPager n t => [(n, t)] | _ => [] end)
    tr.

(** The lines that a page prints: those of the entries that marshal. *)
Definition printed {LogEntry : Type} (Marshal : LogEntry -> string + string)
    (entries : list LogEntry) : list string :=
  flat_map (fun e => match Marshal e with inl j => [j] | inr _ => [] end)
    entries.

(** One cursor at the start and one more after each pause; every pause
    lasts one second; every cursor has the options [opts] and a pager of
    1000 entries. *)
Definition cursorsMatchPauses (opts : list Logadmin.EntriesOption)
    (tr : list Event) : Prop :=
  length (opened tr) = S (length (slept tr))
  /\ Forall (fun d => d = 1 * Second) (slept tr)
  /\ Forall (fun o => o = opts) (opened tr)
  /\ length (pagers tr) = length (opened tr)
  /\ Forall (fun p : Z * string => fst p = 1000) (pagers tr).

(** The detailed lines are as many as the expiry notices, and one more
    while the loop is rate limited. *)
Definition noticesBalanced (st : Loop) : Prop :=
  countLines isExceeded (logged (trace st))
  = (countLines isExpired (logged (trace st))
     + (if rateLimited st then 1 else 0))%nat.

End LoopReading.

(** ** More concrete values *)

Module MoreFixture.
Import Go FetchLoop.

Definition deniedError : PageError :=
  {| err_Error := "rpc error: code = PermissionDenied desc = denied";
     err_isCanceled := false;
     err_APIError := None;
     err_status := Some PermissionDenied |}.

(** An iterator over the pages of a server: the buffer, the token of the
    next request, and whether the last page was read. *)
Record Inner := {
  buf : list string;
  tok : string;
  atEnd : bool
}.

Definition server (token : string) : list string * string :=
  if String.eqb token EmptyString then (["a"; "b"; "c"]%string, "t1"%string)
  else if String.eqb token "t1" then (["d"]%string, EmptyString)
  else ([], EmptyString).

Definition innerNext (i : Inner) : (string + string) * Inner :=
  match buf i with
  | x :: rest => (inl x, {| buf := rest; tok := tok i; atEnd := atEnd i |})
  | [] =>
      if atEnd i then (inr FetchLoop.noMoreItems, i)
      else
        match server (tok i) with
        | (x :: rest, next) =>
            (inl x, {| buf := rest; tok := next;
                       atEnd := String.eqb next EmptyString |})
        | ([], next) =>
            (inr FetchLoop.noMoreItems,
             {| buf := []; tok := next; atEnd := true |})
        end
  end.

Definition remaining (i : Inner) : Z := Z.of_nat (length (buf i)).

Definition setPage (size : Z) (token : string) (i : Inner) : Inner :=
  {| buf := buf i; tok := token; atEnd := atEnd i |}.

Definition fresh : LogadminClient.EntryIterator (Inner := Inner) (Item := string) :=
  {| LogadminClient.it := {| buf := []; tok := EmptyString; atEnd := false |};
     LogadminClient.items := [] |}.

(** The zero instant given as the start of a window. *)
Definition zeroWindow : Cmd.Flags :=
  {| Cmd.flag_freshness := EmptyString;
     Cmd.flag_from := "0001-01-01T00:00:00Z";
     Cmd.flag_to := "2024-01-02T00:00:00Z" |}.

(** One hour, as a line typed with its line feed. *)
Definition lineFeed : string :=
  String "1" (String "h" (String newline EmptyString)).

Definition lineFeedFlags : Cmd.Flags :=
  {| Cmd.flag_freshness := lineFeed;
     Cmd.flag_from := EmptyString;
     Cmd.flag_to := EmptyString |}.

Definition lineFeedWithFrom : Cmd.Flags :=
  {| Cmd.flag_freshness := lineFeed;
     Cmd.flag_from := "yesterday";
     Cmd.flag_to := EmptyString |}.

Definition openClient : LogadminClient.Client :=
  {| LogadminClient.parent := "projects/my-project";
     LogadminClient.closed := false |}.

End MoreFixture.

(** * Properties *)

(** ** Strings, the matcher and 64-bit arithmetic *)

Module Facts.
Import Go Regexp Cmd.

(** *** Appending strings *)

Lemma append_cons c (a b : string) : String c a +:+ b = String c (a +:+ b).
Proof. reflexivity. Qed.

Lemma append_nil_l (s : string) : EmptyString +:+ s = s.
Proof. reflexivity. Qed.

Ltac app_simpl := rewrite ?append_cons, ?append_nil_l in *; simpl in *.

Lemma append_nil_r (s : string) : s +:+ EmptyString = s.
Proof. induction s as [|c s IH]; app_simpl; [reflexivity | f_equal; exact IH]. Qed.

Lemma append_assoc (a b c : string) : (a +:+ b) +:+ c = a +:+ (b +:+ c).
Proof. induction a as [|x a IH]; app_simpl; [reflexivity | f_equal; exact IH]. Qed.

Lemma length_append (a b : string) :
  String.length (a +:+ b) = (String.length a + String.length b)%nat.
Proof. induction a as [|x a IH]; app_simpl; [reflexivity | f_equal; exact IH]. Qed.

Lemma substring_prefix (a b : string) :
  substring 0 (String.length a) (a +:+ b) = a.
Proof.
  induction a as [|x a IH]; app_simpl.
  - destruct b; reflexivity.
  - f_equal; exact IH.
Qed.

Lemma substring_all (a : string) : substring 0 (String.length a) a = a.
Proof. rewrite <- (append_nil_r a) at 2. apply substring_prefix. Qed.

Lemma forallb_string_append p (a b : string) :
  forallb_string p (a +:+ b) = forallb_string p a && forallb_string p b.
Proof.
  induction a as [|x a IH]; app_simpl; [reflexivity |].
  rewrite IH. now rewrite andb_assoc.
Qed.

(** *** Repetition of a class

    A run of bytes of the class, followed by a byte outside it or by the
    end: the repetition first tries the whole run. *)

Section Rep.
Context {R : Type}.

Lemma rep_longest cl (run rest : string) pos (k : nat -> string -> option R) x :
  forallb_string (in_class cl) run = true ->
  stopsAt cl rest ->
  k (pos + String.length run)%nat rest = Some x ->
  rep cl (run +:+ rest) pos k = Some x.
Proof.
  revert pos. induction run as [|c run IH]; intros pos Hrun Hstop Hk; app_simpl.
  - rewrite Nat.add_0_r in Hk.
    destruct rest as [|c rest]; simpl; [exact Hk |].
    simpl in Hstop. now rewrite Hstop.
  - apply andb_true_iff in Hrun as [Hc Hrun]. rewrite Hc.
    rewrite (IH (S pos) Hrun Hstop); [reflexivity |].
    now rewrite <- Nat.add_succ_comm in Hk.
Qed.

Lemma rep_none cl (run rest : string) pos (k : nat -> string -> option R) :
  forallb_string (in_class cl) run = true ->
  stopsAt cl rest ->
  (forall p u, forallb_string (in_class cl) u = true ->
               k p (u +:+ rest) = None) ->
  rep cl (run +:+ rest) pos k = None.
Proof.
  revert pos. induction run as [|c run IH]; intros pos Hrun Hstop Hk.
  - specialize (Hk pos EmptyString eq_refl). app_simpl.
    destruct rest as [|c rest]; simpl; [exact Hk |].
    simpl in Hstop. now rewrite Hstop.
  - pose proof (Hk pos (String c run) Hrun) as Hhere. app_simpl.
    apply andb_true_iff in Hrun as [Hc Hrun]. rewrite Hc.
    now rewrite (IH (S pos) Hrun Hstop Hk).
Qed.
End Rep.

(** A match at the first position tried is the result of the search. *)
Lemma search_found re n pos rest m :
  rmatch re (MState pos rest ∅)
    (fun st' => Some (substring 0 (m_pos st' - pos) rest
                      :: map (group (m_caps st')) (seq 1 n))) = Some m ->
  search re n pos rest = m.
Proof. intros Hm. destruct rest; cbn [search]; now rewrite Hm. Qed.

Lemma rep_to_end {R} cl (run : string) pos (k : nat -> string -> option R) x :
  forallb_string (in_class cl) run = true ->
  k (pos + String.length run)%nat EmptyString = Some x ->
  rep cl run pos k = Some x.
Proof.
  intros Hrun Hk. rewrite <- (append_nil_r run).
  now apply rep_longest.
Qed.

Lemma rmatch_plus_longest {R} cl (run rest : string) pos caps
    (k : mstate -> option R) x :
  run <> EmptyString ->
  forallb_string (in_class cl) run = true ->
  stopsAt cl rest ->
  k (MState (pos + String.length run) rest caps) = Some x ->
  rmatch (RePlus cl) (MState pos (run +:+ rest) caps) k = Some x.
Proof.
  intros Hne Hrun Hstop Hk.
  destruct run as [|c run]; [congruence |].
  cbn [forallb_string] in Hrun. apply andb_true_iff in Hrun as [Hc Hrun].
  rewrite append_cons. cbn [rmatch m_rest m_pos m_caps]. rewrite Hc.
  apply rep_longest; [exact Hrun | exact Hstop |].
  cbn [String.length] in Hk. now rewrite <- Nat.add_succ_comm in Hk.
Qed.

Lemma rmatch_plus_none {R} cl (run rest : string) pos caps
    (k : mstate -> option R) :
  forallb_string (in_class cl) run = true ->
  stopsAt cl rest ->
  (forall p u, forallb_string (in_class cl) u = true ->
               k (MState p (u +:+ rest) caps) = None) ->
  rmatch (RePlus cl) (MState pos (run +:+ rest) caps) k = None.
Proof.
  intros Hrun Hstop Hk.
  destruct run as [|c run].
  - rewrite append_nil_l. cbn [rmatch m_rest].
    destruct rest as [|c rest]; [reflexivity |].
    simpl in Hstop. now rewrite Hstop.
  - cbn [forallb_string] in Hrun. apply andb_true_iff in Hrun as [Hc Hrun].
    rewrite append_cons. cbn [rmatch m_rest m_pos m_caps]. rewrite Hc.
    now apply rep_none.
Qed.

Lemma rmatch_star_to_end {R} cl (run : string) pos caps
    (k : mstate -> option R) x :
  forallb_string (in_class cl) run = true ->
  k (MState (pos + String.length run) EmptyString caps) = Some x ->
  rmatch (ReStar cl) (MState pos run caps) k = Some x.
Proof.
  intros Hrun Hk. cbn [rmatch m_rest m_pos m_caps].
  now apply rep_to_end.
Qed.

(** *** The equations of [rmatch] *)

Section Equations.
Context {R : Type} (k : mstate -> option R) (st : mstate).

Lemma rmatch_cat r1 r2 :
  rmatch (ReCat r1 r2) st k = rmatch r1 st (fun st' => rmatch r2 st' k).
Proof. reflexivity. Qed.

Lemma rmatch_quest r :
  rmatch (ReQuest r) st k
  = match rmatch r st k with Some x => Some x | None => k st end.
Proof. reflexivity. Qed.

Lemma rmatch_capture i r :
  rmatch (ReCapture i r) st k
  = rmatch r st (fun st' =>
      k (MState (m_pos st') (m_rest st')
           (<[i := substring 0 (m_pos st' - m_pos st) (m_rest st)]>
              (m_caps st')))).
Proof. reflexivity. Qed.

Lemma rmatch_begin :
  rmatch ReBeginText st k = if Nat.eqb (m_pos st) 0 then k st else None.
Proof. reflexivity. Qed.

Lemma rmatch_end :
  rmatch ReEndText st k
  = match m_rest st with EmptyString => k st | String _ _ => None end.
Proof. reflexivity. Qed.

Lemma rmatch_one cl :
  rmatch (ReOne cl) st k
  = match m_rest st with
    | String c rest' =>
        if in_class cl c then k (MState (S (m_pos st)) rest' (m_caps st))
        else None
    | EmptyString => None
    end.
Proof. reflexivity. Qed.
End Equations.

(** *** The submatches of the freshness pattern *)

(** Digits, the letter d and a rest without line feed: group 1 holds the
    digits and group 2 the rest. *)
Lemma find_days (ds r : string) :
  forallb_string isDigit ds = true -> ds <> EmptyString ->
  noNewline r = true ->
  FindStringSubmatch freshnessRe 2 (ds +:+ "d" +:+ r)
  = [ds +:+ "d" +:+ r; ds; r].
Proof.
  intros Hds Hne Hr. apply search_found.
  unfold freshnessRe.
  rewrite rmatch_cat, rmatch_begin. cbn [m_pos Nat.eqb].
  rewrite rmatch_cat, rmatch_quest, rmatch_cat, rmatch_capture.
  erewrite rmatch_plus_longest;
    [reflexivity | exact Hne | exact Hds | reflexivity |].
  cbn [m_pos m_rest m_caps].
  rewrite rmatch_one. cbn [m_pos m_rest m_caps].
  rewrite (append_cons "d" EmptyString r), append_nil_l.
  cbn [in_class]. rewrite Ascii.eqb_refl.
  rewrite rmatch_cat, rmatch_capture.
  apply rmatch_star_to_end; [exact Hr |].
  rewrite rmatch_end. cbn [m_pos m_rest m_caps].
  rewrite !Nat.sub_0_r, Nat.add_0_l.
  replace (S (String.length ds) + String.length r - S (String.length ds))%nat
    with (String.length r) by lia.
  rewrite substring_all, substring_prefix.
  replace (S (String.length ds) + String.length r)%nat
    with (String.length (ds +:+ String "d" r)).
  2:{ rewrite length_append. simpl. lia. }
  rewrite substring_all.
  reflexivity.
Qed.

Lemma rmatch_plus_empty {R} cl (rest : string) pos caps (k : mstate -> option R) :
  stopsAt cl rest ->
  rmatch (RePlus cl) (MState pos rest caps) k = None.
Proof.
  intros Hstop. cbn [rmatch m_rest].
  destruct rest as [|c rest]; [reflexivity |].
  simpl in Hstop. now rewrite Hstop.
Qed.

Lemma digit_not_d c : isDigit c = true -> Ascii.eqb c "d" = false.
Proof.
  intros Hc. destruct (Ascii.eqb_spec c "d") as [-> |]; [| reflexivity].
  vm_compute in Hc. discriminate.
Qed.

(** No digits followed by d at the start, and no line feed: group 1 is
    empty and group 2 holds the whole text. *)
Lemma find_plain (ds t : string) :
  forallb_string isDigit ds = true ->
  stopsAt ClDigit t ->
  ds = EmptyString \/ stopsAt (ClLit "d") t ->
  noNewline (ds +:+ t) = true ->
  FindStringSubmatch freshnessRe 2 (ds +:+ t)
  = [ds +:+ t; EmptyString; ds +:+ t].
Proof.
  intros Hds Hstop Hd Hnl. apply search_found.
  unfold freshnessRe.
  rewrite rmatch_cat, rmatch_begin. cbn [m_pos Nat.eqb].
  rewrite rmatch_cat, rmatch_quest, rmatch_cat, rmatch_capture.
  match goal with
  | |- match ?g with Some x => Some x | None => ?rest end = _ =>
      assert (Hg : g = None); [| rewrite Hg]
  end.
  { destruct Hd as [-> | Hd].
    - rewrite append_nil_l. now apply rmatch_plus_empty.
    - apply rmatch_plus_none; [exact Hds | exact Hstop |].
      intros p u Hu. rewrite rmatch_one. cbn [m_rest m_pos m_caps].
      destruct u as [|c u].
      + rewrite append_nil_l. destruct t as [|c t]; [reflexivity |].
        simpl in Hd. cbn [in_class]. now rewrite Hd.
      + rewrite append_cons. cbn [forallb_string] in Hu.
        apply andb_true_iff in Hu as [Hc _].
        cbn [in_class]. now rewrite (digit_not_d c Hc). }
  rewrite rmatch_cat, rmatch_capture.
  apply rmatch_star_to_end; [exact Hnl |].
  rewrite rmatch_end. cbn [m_pos m_rest m_caps].
  rewrite !Nat.sub_0_r, Nat.add_0_l, substring_all.
  reflexivity.
Qed.

(** *** Arithmetic of [int64] *)

Lemma wrap64_id z : inInt64 z -> wrap64 z = z.
Proof.
  unfold inInt64, minInt64, maxInt64, wrap64. intros Hz.
  rewrite Z.mod_small; lia.
Qed.

Lemma wrap64_congr a b :
  a mod 2 ^ 64 = b mod 2 ^ 64 -> wrap64 a = wrap64 b.
Proof.
  intros Hab. unfold wrap64.
  rewrite <- (Z.add_mod_idemp_l a), <- (Z.add_mod_idemp_l b) by lia.
  now rewrite Hab.
Qed.

Lemma wrap64_mod z : wrap64 z mod 2 ^ 64 = z mod 2 ^ 64.
Proof.
  unfold wrap64.
  rewrite <- Zminus_mod_idemp_l, Z.mod_mod by lia.
  rewrite Zminus_mod_idemp_l. f_equal. lia.
Qed.

Lemma wrap64_add_l a b : wrap64 (wrap64 a + b) = wrap64 (a + b).
Proof.
  apply wrap64_congr.
  now rewrite <- Z.add_mod_idemp_l, wrap64_mod, Z.add_mod_idemp_l by lia.
Qed.

Lemma wrap64_mul_l a b : wrap64 (wrap64 a * b) = wrap64 (a * b).
Proof.
  apply wrap64_congr.
  now rewrite <- Z.mul_mod_idemp_l, wrap64_mod, Z.mul_mod_idemp_l by lia.
Qed.

Lemma wrap64_wrap64 a : wrap64 (wrap64 a) = wrap64 a.
Proof. apply wrap64_congr, wrap64_mod. Qed.

(** *** Decimal digits *)

Lemma isDigit_byte c : isDigit c = true -> 0 <= byte c - 48 <= 9.
Proof. unfold isDigit. lia. Qed.

Lemma decimal_nonneg (s : string) acc :
  forallb_string isDigit s = true -> 0 <= acc -> 0 <= decimal acc s.
Proof.
  revert acc. induction s as [|c s IH]; intros acc Hs Hacc; simpl in *.
  - exact Hacc.
  - apply andb_true_iff in Hs as [Hc Hs]. apply IH; [exact Hs |].
    pose proof (isDigit_byte c Hc). lia.
Qed.

Lemma Atoi_digits (ds : string) :
  forallb_string isDigit ds = true -> ds <> EmptyString ->
  Atoi ds = if decimal 0 ds <=? maxInt64 then Some (decimal 0 ds) else None.
Proof.
  intros Hds Hne. unfold Atoi.
  destruct ds as [|c ds]; [congruence |].
  pose proof Hds as Hall. cbn [forallb_string] in Hds.
  apply andb_true_iff in Hds as [Hc _].
  assert (Hm : Ascii.eqb c "-" = false).
  { destruct (Ascii.eqb_spec c "-") as [-> |]; [| reflexivity].
    vm_compute in Hc. discriminate. }
  assert (Hp : Ascii.eqb c "+" = false).
  { destruct (Ascii.eqb_spec c "+") as [-> |]; [| reflexivity].
    vm_compute in Hc. discriminate. }
  rewrite Hm, Hp, Hall. cbn [nonEmpty andb].
  pose proof (decimal_nonneg (String c ds) 0 Hall ltac:(lia)) as Hd.
  replace (minInt64 <=? decimal 0 (String c ds)) with true; [reflexivity |].
  symmetry. apply Z.leb_le. unfold minInt64. lia.
Qed.

Lemma append_nonempty_l (a b : string) : a <> EmptyString -> a +:+ b <> EmptyString.
Proof. destruct a; [congruence | rewrite append_cons; discriminate]. Qed.

Lemma eqb_empty (s : string) : String.eqb s EmptyString = negb (nonEmpty s).
Proof. destruct s; reflexivity. Qed.

Lemma nonEmpty_true (s : string) : s <> EmptyString -> nonEmpty s = true.
Proof. destruct s; [congruence | reflexivity]. Qed.

(** *** [parseFreshness] by the shape of its input *)

Section Freshness.
Context `{Std}.

Lemma parseFreshness_days (ds r : string) :
  forallb_string isDigit ds = true -> ds <> EmptyString ->
  noNewline r = true ->
  parseFreshness (ds +:+ "d" +:+ r)
  = Returns
      (if decimal 0 ds <=? maxInt64 then
         if nonEmpty r then
           match ParseDuration r with
           | (_, Some _) => (0, invalidFreshness (ds +:+ "d" +:+ r))
           | (other, None) => (wrap64 (decimal 0 ds * 24 * Hour + other), None)
           end
         else (wrap64 (decimal 0 ds * 24 * Hour), None)
       else (0, invalidFreshness (ds +:+ "d" +:+ r))).
Proof.
  intros Hds Hne Hr. unfold parseFreshness.
  rewrite eqb_empty, (nonEmpty_true _ (append_nonempty_l ds _ Hne)).
  cbn [negb]. rewrite (find_days ds r Hds Hne Hr).
  unfold index. cbn [lookup list_lookup mbind Outcome_bind].
  rewrite (nonEmpty_true ds Hne), (Atoi_digits ds Hds Hne).
  destruct (decimal 0 ds <=? maxInt64); [| reflexivity].
  rewrite Z.add_0_l, wrap64_wrap64, wrap64_mul_l.
  destruct (nonEmpty r); [| reflexivity].
  destruct (ParseDuration r) as [other [e|]]; [reflexivity |].
  now rewrite wrap64_add_l.
Qed.

Lemma parseFreshness_plain (ds t : string) :
  forallb_string isDigit ds = true ->
  stopsAt ClDigit t ->
  ds = EmptyString \/ stopsAt (ClLit "d") t ->
  noNewline (ds +:+ t) = true ->
  ds +:+ t <> EmptyString ->
  parseFreshness (ds +:+ t)
  = Returns
      match ParseDuration (ds +:+ t) with
      | (_, Some _) => (0, invalidFreshness (ds +:+ t))
      | (other, None) => (wrap64 other, None)
      end.
Proof.
  intros Hds Hstop Hd Hnl Hne. unfold parseFreshness.
  rewrite eqb_empty, (nonEmpty_true _ Hne).
  cbn [negb]. rewrite (find_plain ds t Hds Hstop Hd Hnl).
  unfold index. cbn [lookup list_lookup mbind Outcome_bind nonEmpty].
  rewrite (nonEmpty_true _ Hne).
  destruct (ParseDuration (ds +:+ t)) as [other [e|]]; [reflexivity |].
  now rewrite Z.add_0_l.
Qed.

Lemma parseFreshness_empty :
  parseFreshness EmptyString = Returns (0, invalidFreshness EmptyString).
Proof. reflexivity. Qed.

Lemma returns_pair {A B} (p : A * B) :
  exists a b, Returns p = Returns (a, b).
Proof. destruct p as [a b]. now exists a, b. Qed.

(** Every string is a run of digits and a rest that starts with none. *)
Lemma digits_split (s : string) :
  exists ds t, s = ds +:+ t /\ forallb_string isDigit ds = true
               /\ stopsAt ClDigit t.
Proof.
  induction s as [|c s (ds & t & -> & Hds & Ht)].
  - now exists EmptyString, EmptyString.
  - destruct (isDigit c) eqn:Hc.
    + exists (String c ds), t. rewrite append_cons. cbn [forallb_string].
      now rewrite Hc, Hds.
    + exists EmptyString, (String c (ds +:+ t)). now rewrite append_nil_l.
Qed.

Lemma noNewline_append (a b : string) :
  noNewline (a +:+ b) = noNewline a && noNewline b.
Proof. apply forallb_string_append. Qed.

(** Without a line feed in its input, [parseFreshness] does not panic. *)
Lemma parseFreshness_returns (s : string) :
  noNewline s = true -> exists d e, parseFreshness s = Returns (d, e).
Proof.
  intros Hnl. destruct (nonEmpty s) eqn:Hs.
  2:{ destruct s; [| discriminate]. now eexists _, _. }
  assert (Hne : s <> EmptyString) by (destruct s; [discriminate | congruence]).
  destruct (digits_split s) as (ds & t & -> & Hds & Ht).
  assert (Hplain : ds = EmptyString \/ stopsAt (ClLit "d") t ->
            exists d e, parseFreshness (ds +:+ t) = Returns (d, e)).
  { intros Hd. rewrite (parseFreshness_plain ds t Hds Ht Hd Hnl Hne).
    apply returns_pair. }
  destruct ds as [|c ds]; [apply Hplain; now left |].
  destruct t as [|c' r]; [apply Hplain; now right |].
  destruct (Ascii.eqb_spec c' "d") as [-> | Hc'].
  - change (String "d" r) with ("d" +:+ r) in *.
    rewrite !noNewline_append in Hnl.
    apply andb_true_iff in Hnl as [_ Hnl].
    apply andb_true_iff in Hnl as [_ Hnl].
    rewrite (parseFreshness_days (String c ds) r Hds ltac:(discriminate) Hnl).
    apply returns_pair.
  - apply Hplain. right. cbn. now apply Ascii.eqb_neq.
Qed.

Lemma nonEmpty_false_iff (s : string) : nonEmpty s = false <-> s = EmptyString.
Proof. destruct s; simpl; split; congruence. Qed.

Lemma nonEmpty_true_iff (s : string) : nonEmpty s = true <-> s <> EmptyString.
Proof. destruct s; simpl; split; congruence. Qed.

End Freshness.

(** *** Substrings *)

Lemma prefix_spec (sub s : string) :
  String.prefix sub s = true <-> exists b, s = sub +:+ b.
Proof.
  revert s. induction sub as [|c sub IH]; intros s.
  - split; [intros _; now exists s | intros _; now destruct s].
  - destruct s as [|c' s]; cbn [String.prefix].
    + split; [discriminate | intros [b Hb]; rewrite append_cons in Hb; discriminate].
    + destruct (ascii_dec c c') as [-> | Hc].
      * rewrite IH. split; intros [b Hb]; exists b.
        -- now rewrite append_cons, Hb.
        -- rewrite append_cons in Hb. congruence.
      * split; [discriminate |].
        intros [b Hb]. rewrite append_cons in Hb. congruence.
Qed.

Lemma Contains_spec (s sub : string) :
  Contains s sub = true <-> exists a b, s = a +:+ sub +:+ b.
Proof.
  induction s as [|c s IH]; cbn [Contains]; rewrite orb_true_iff, prefix_spec.
  - split.
    + intros [[b Hb] | Hf]; [now exists EmptyString, b | discriminate].
    + intros (a & b & Hab). left.
      destruct a as [|x a]; [now exists b |].
      rewrite append_cons in Hab. discriminate.
  - rewrite IH. split.
    + intros [[b Hb] | (a & b & Hab)].
      * now exists EmptyString, b.
      * exists (String c a), b. now rewrite append_cons, Hab.
    + intros (a & b & Hab). destruct a as [|x a].
      * left. now exists b.
      * right. rewrite append_cons in Hab. exists a, b. congruence.
Qed.

(** *** The options of [Run] *)

Lemma applyOptions_entriesOptions parent allFilters newestFirst :
  Logadmin.applyOptions parent (entriesOptions allFilters newestFirst)
  = {| Logadmin.ResourceNames := [parent];
       Logadmin.Filter := allFilters;
       Logadmin.OrderBy :=
         if newestFirst then "timestamp desc" else EmptyString;
       Logadmin.PageSize := 1000 |}.
Proof. now destruct newestFirst. Qed.

Lemma wrap64_day : wrap64 (- (24 * Hour)) = - (24 * Hour).
Proof. reflexivity. Qed.

End Facts.

(** ** The loop, step by step *)

Module LoopFacts.
Import Go FetchLoop.

(** *** Reading a trace piecewise *)

Lemma stdout_app a b : stdout (a ++ b) = stdout a ++ stdout b.
Proof. apply flat_map_app. Qed.

Lemma logged_app a b : logged (a ++ b) = logged a ++ logged b.
Proof. apply flat_map_app. Qed.

Lemma requested_app a b : requested (a ++ b) = requested a ++ requested b.
Proof. apply flat_map_app. Qed.

Lemma slept_app a b : slept (a ++ b) = slept a ++ slept b.
Proof. apply flat_map_app. Qed.

Lemma stdout_logs lines : stdout (map EvLog lines) = [].
Proof. induction lines; [reflexivity | exact IHlines]. Qed.

Lemma logged_logs lines : logged (map EvLog lines) = lines.
Proof. induction lines as [|l lines IH]; [reflexivity |]. cbn. now f_equal. Qed.

Lemma requested_logs lines : requested (map EvLog lines) = [].
Proof. induction lines; [reflexivity | exact IHlines]. Qed.

Lemma stdout_prints lines : stdout (map EvPrintln lines) = lines.
Proof. induction lines as [|l lines IH]; [reflexivity |]. cbn. now f_equal. Qed.

Lemma logged_prints lines : logged (map EvPrintln lines) = [].
Proof. induction lines; [reflexivity | exact IHlines]. Qed.

(** *** [handleRateLimitError] *)

Lemma handle_limited err limited :
  hasRateLimitReason err = true ->
  exists lines,
    handleRateLimitError err limited
    = (true, map EvLog lines ++ [EvSleep (1 * Second)])
    /\ (limited = true -> lines = [LogDot])
    /\ (limited = false ->
        (exists q v, lines = [LogRateLimitQuota q v])
        \/ lines = [LogRateLimit; LogValue (err_Error err)]).
Proof.
  unfold hasRateLimitReason, handleRateLimitError.
  destruct (err_APIError err) as [apiErr|]; [| discriminate].
  intros ->. destruct limited; cbn [negb].
  - exists [LogDot]. split; [reflexivity | split; [reflexivity | discriminate]].
  - destruct (nonEmpty _ && nonEmpty _).
    + eexists [LogRateLimitQuota _ _].
      split; [reflexivity | split; [discriminate |]].
      intros _. left. eauto.
    + exists [LogRateLimit; LogValue (err_Error err)].
      split; [reflexivity | split; [discriminate |]].
      intros _. now right.
Qed.

Lemma handle_other err limited :
  hasRateLimitReason err = false ->
  handleRateLimitError err limited = (false, []).
Proof.
  unfold hasRateLimitReason, handleRateLimitError.
  destruct (err_APIError err) as [apiErr|]; [| reflexivity].
  now intros ->.
Qed.

Lemma isRateLimit_inv err :
  isRateLimit err = true ->
  err_isCanceled err = false
  /\ String.eqb (err_Error err) noMoreItems = false
  /\ hasRateLimitReason err = true.
Proof.
  unfold isRateLimit. rewrite !andb_true_iff, !negb_true_iff. tauto.
Qed.

Section WithEntries.
Context {LogEntry : Type}.
Context (InsertId : LogEntry -> string).
Context (Marshal : LogEntry -> string + string).
Context (opts : list Logadmin.EntriesOption).

#[local] Abbreviation emit := (emit InsertId Marshal).
#[local] Abbreviation body := (body InsertId Marshal).
#[local] Abbreviation loop := (loop InsertId Marshal opts).
#[local] Abbreviation openCursor := (openCursor opts).

(** *** The events of a page *)

Lemma requested_emit entries : requested (flat_map emit entries) = [].
Proof.
  induction entries as [|e entries IH]; [reflexivity |].
  cbn [flat_map]. rewrite requested_app, IH. unfold FetchLoop.emit.
  now destruct (Marshal e).
Qed.

Lemma slept_emit entries : slept (flat_map emit entries) = [].
Proof.
  induction entries as [|e entries IH]; [reflexivity |].
  cbn [flat_map]. rewrite slept_app, IH. unfold FetchLoop.emit.
  now destruct (Marshal e).
Qed.

Lemma logged_emit_marshal entries :
  Forall (fun l => isMarshalError l = true) (logged (flat_map emit entries)).
Proof.
  induction entries as [|e entries IH]; [constructor |].
  cbn [flat_map]. rewrite logged_app. apply Forall_app. split; [| exact IH].
  unfold FetchLoop.emit. destruct (Marshal e); cbn; auto.
Qed.

Lemma emit_marshaled entries jsons :
  Forall2 (fun e j => Marshal e = inl j) entries jsons ->
  flat_map emit entries = map EvPrintln jsons.
Proof.
  induction 1 as [|e j entries jsons He _ IH]; [reflexivity |].
  cbn [flat_map map]. rewrite IH. unfold FetchLoop.emit. now rewrite He.
Qed.

(** *** One iteration *)

Lemma body_rate_limit st err :
  isRateLimit err = true ->
  exists lines,
    body st (Failed err)
    = (Break,
       {| rateLimited := true;
          currentToken := currentToken st;
          pager := pager st;
          trace := (trace st ++ [EvNextPage (pg_token (pager st))])
                     ++ map EvLog lines ++ [EvSleep (1 * Second)] |})
    /\ (rateLimited st = true -> lines = [LogDot])
    /\ (rateLimited st = false ->
        (exists q v, lines = [LogRateLimitQuota q v])
        \/ lines = [LogRateLimit; LogValue (err_Error err)]).
Proof.
  intros Hrl. apply isRateLimit_inv in Hrl as (Hc & Hs & Hr).
  destruct (handle_limited err (rateLimited st) Hr) as (lines & Hh & Hl).
  exists lines. split; [| exact Hl].
  unfold FetchLoop.body. now rewrite Hc, Hs, Hh.
Qed.

Lemma body_page st entries next :
  body st (Page entries next)
  = (if String.eqb next EmptyString then BreakOuter else Continue,
     {| rateLimited := false;
        currentToken :=
          if String.eqb next EmptyString then currentToken st else next;
        pager := {| pg_pageSize := pg_pageSize (pager st); pg_token := next |};
        trace := ((trace st ++ [EvNextPage (pg_token (pager st))])
                    ++ (if rateLimited st then [EvLog LogRateLimitExpired]
                        else []))
                   ++ flat_map emit entries |}).
Proof. unfold FetchLoop.body. now destruct (String.eqb next EmptyString). Qed.

(** *** The loop over several answers *)

Lemma loop_rate_limit st err answers :
  isRateLimit err = true ->
  exists lines,
    loop ((fun _ => Failed err) :: answers) st
    = loop answers
        {| rateLimited := true;
           currentToken := currentToken st;
           pager := {| pg_pageSize := 1000; pg_token := currentToken st |};
           trace := ((trace st ++ [EvNextPage (pg_token (pager st))])
                       ++ map EvLog lines ++ [EvSleep (1 * Second)])
                      ++ [EvEntries opts; EvNewPager 1000 (currentToken st)] |}
    /\ (rateLimited st = true -> lines = [LogDot])
    /\ (rateLimited st = false ->
        (exists q v, lines = [LogRateLimitQuota q v])
        \/ lines = [LogRateLimit; LogValue (err_Error err)]).
Proof.
  intros Hrl. destruct (body_rate_limit st err Hrl) as (lines & Hb & Hl).
  exists lines. split; [| exact Hl].
  cbn [FetchLoop.loop]. now rewrite Hb.
Qed.

Lemma loop_page st entries next answers :
  loop ((fun _ => Page entries next) :: answers) st
  = let st' :=
      {| rateLimited := false;
         currentToken :=
           if String.eqb next EmptyString then currentToken st else next;
         pager := {| pg_pageSize := pg_pageSize (pager st); pg_token := next |};
         trace := ((trace st ++ [EvNextPage (pg_token (pager st))])
                     ++ (if rateLimited st then [EvLog LogRateLimitExpired]
                         else []))
                    ++ flat_map emit entries |} in
    if String.eqb next EmptyString then Finished None st'
    else loop answers st'.
Proof.
  cbn [FetchLoop.loop]. rewrite body_page.
  now destruct (String.eqb next EmptyString).
Qed.

(** A streak of rate limits met while already limited: a dot and a pause
    for each, the token kept. *)
Lemma loop_limited_streak errs : forall st,
  rateLimited st = true ->
  Forall (fun e => isRateLimit e = true) errs ->
  exists st',
    (forall answers,
        loop (map (fun e _ => Failed e) errs ++ answers) st = loop answers st')
    /\ rateLimited st' = true
    /\ currentToken st' = currentToken st
    /\ (errs <> [] -> pg_token (pager st') = currentToken st)
    /\ logged (trace st') = logged (trace st) ++ repeat LogDot (length errs)
    /\ stdout (trace st') = stdout (trace st).
Proof.
  induction errs as [|e errs IH]; intros st Hst Herrs.
  - exists st. repeat split; try reflexivity; try assumption.
    + congruence.
    + cbn. now rewrite app_nil_r.
  - apply Forall_cons in Herrs as [He Herrs].
    destruct (loop_rate_limit st e [] He) as (lines & _ & Hdot & _).
    specialize (Hdot Hst). subst lines.
    set (st1 := {| rateLimited := true;
                   currentToken := currentToken st;
                   pager := {| pg_pageSize := 1000;
                               pg_token := currentToken st |};
                   trace := ((trace st ++ [EvNextPage (pg_token (pager st))])
                               ++ map EvLog [LogDot] ++ [EvSleep (1 * Second)])
                              ++ [EvEntries opts;
                                  EvNewPager 1000 (currentToken st)] |}).
    destruct (IH st1 eq_refl Herrs) as (st' & Hloop & Hrl & Htok & Hpg & Hlog & Hout).
    exists st'. split; [| split; [exact Hrl | split; [exact Htok |]]].
    + intros answers. cbn [map app].
      destruct (loop_rate_limit st e (map (fun e _ => Failed e) errs ++ answers) He)
        as (lines & Hstep & Hdot & _).
      specialize (Hdot Hst). subst lines. rewrite Hstep. apply Hloop.
    + split; [| split].
      * intros _. destruct errs as [|e' errs].
        -- specialize (Hloop []). cbn in Hloop. injection Hloop as <-.
           reflexivity.
        -- now apply Hpg.
      * rewrite Hlog. unfold st1. cbn [trace].
        rewrite !logged_app. cbn. rewrite !app_nil_r, <- app_assoc.
        reflexivity.
      * rewrite Hout. unfold st1. cbn [trace].
        rewrite !stdout_app. cbn. now rewrite !app_nil_r.
Qed.

(** Pages with a next token, one after the other. *)
Lemma loop_pages pages : forall st,
  Forall (fun p : list LogEntry * string => snd p <> EmptyString) pages ->
  exists st',
    (forall answers,
        loop (map (fun p _ => Page (fst p) (snd p)) pages ++ answers) st
        = loop answers st')
    /\ length (requested (trace st'))
       = (length (requested (trace st)) + length pages)%nat
    /\ slept (trace st') = slept (trace st).
Proof.
  induction pages as [|[entries next] pages IH]; intros st Hpages.
  - exists st. split; [reflexivity | split; [cbn; lia | reflexivity]].
  - apply Forall_cons in Hpages as [Hnext Hpages]. cbn [fst snd] in Hnext.
    apply String.eqb_neq in Hnext.
    set (st1 := {| rateLimited := false;
                   currentToken := next;
                   pager := {| pg_pageSize := pg_pageSize (pager st);
                               pg_token := next |};
                   trace := ((trace st ++ [EvNextPage (pg_token (pager st))])
                               ++ (if rateLimited st
                                   then [EvLog LogRateLimitExpired] else []))
                              ++ flat_map emit entries |}).
    destruct (IH st1 Hpages) as (st' & Hloop & Hreq & Hslept).
    exists st'. split; [| split].
    + intros answers. cbn [map app fst snd].
      rewrite loop_page, Hnext. apply Hloop.
    + rewrite Hreq. unfold st1. cbn [trace].
      rewrite !requested_app, requested_emit, !length_app.
      destruct (rateLimited st); cbn; lia.
    + rewrite Hslept. unfold st1. cbn [trace].
      rewrite !slept_app, slept_emit.
      destruct (rateLimited st); cbn; now rewrite !app_nil_r.
Qed.

(** The pager of a waiting loop stands at the saved token. *)
Lemma loop_pager_token answers : forall st st',
  pg_token (pager st) = currentToken st ->
  loop answers st = Waiting st' ->
  pg_token (pager st') = currentToken st'.
Proof.
  induction answers as [|answer answers IH]; intros st st' Hst Hrun.
  - cbn in Hrun. now injection Hrun as <-.
  - cbn [FetchLoop.loop] in Hrun.
    destruct (body st (answer (pg_token (pager st)))) as [[| | |err] st1] eqn:Hb;
      try discriminate.
    + apply (IH st1 st'); [| exact Hrun].
      destruct (answer (pg_token (pager st))) as [entries next|err].
      * rewrite body_page in Hb.
        destruct (String.eqb next EmptyString); [discriminate |].
        now injection Hb as <-.
      * unfold FetchLoop.body in Hb.
        destruct (_ || _); [discriminate |].
        destruct (handleRateLimitError _ _) as [[|] evs]; [discriminate |].
        destruct (err_status err) as [[]|]; discriminate.
    + eapply IH; [| exact Hrun]. reflexivity.
Qed.

(** The runs with and without the rate limits of a schedule. *)
Lemma runs_in_step (backend : string -> list LogEntry * string) faults :
  forall s1 s2,
    inStep s1 s2 -> onlyRateLimits faults ->
    sameOutcome (loop (answersOf backend faults) s1)
                (loop (answersOf backend (withoutFaults faults)) s2).
Proof.
  induction faults as [|[err|] faults IH]; intros s1 s2 Hstep Hfaults.
  - exact Hstep.
  - apply Forall_cons in Hfaults as [Herr Hfaults].
    cbn [withoutFaults List.filter]. fold (withoutFaults faults).
    cbn [answersOf map]. fold (answersOf backend faults).
    destruct (loop_rate_limit s1 err (answersOf backend faults) Herr)
      as (lines & Hrun & _).
    rewrite Hrun. apply IH; [| exact Hfaults].
    destruct Hstep as (Htok & Hp1 & Hp2 & Hout).
    repeat split; cbn [currentToken pager pg_token trace]; try assumption.
    rewrite !stdout_app, stdout_logs. cbn. rewrite !app_nil_r. exact Hout.
  - apply Forall_cons in Hfaults as [_ Hfaults].
    cbn [withoutFaults List.filter]. fold (withoutFaults faults).
    cbn [answersOf map].
    fold (answersOf backend faults).
    fold (answersOf backend (withoutFaults faults)).
    destruct Hstep as (Htok & Hp1 & Hp2 & Hout).
    cbn [FetchLoop.loop]. rewrite Hp1, Hp2, <- Htok.
    destruct (backend (currentToken s1)) as [entries next].
    rewrite !body_page.
    assert (Hprint : forall s tok,
              stdout (((trace s ++ [EvNextPage tok])
                         ++ (if rateLimited s then [EvLog LogRateLimitExpired]
                             else []))
                        ++ flat_map emit entries)
              = stdout (trace s) ++ stdout (flat_map emit entries)).
    { intros s tok. rewrite !stdout_app.
      destruct (rateLimited s); cbn; now rewrite !app_nil_r. }
    destruct (String.eqb next EmptyString) eqn:Hnext.
    + cbn [sameOutcome trace]. now rewrite !Hprint, Hout.
    + apply IH; [| exact Hfaults].
      repeat split; cbn [currentToken pager pg_token trace].
      now rewrite !Hprint, Hout.
Qed.

End WithEntries.
End LoopFacts.

(** ** The paginated fetch loop *)

Module FetchLoopSpec.
Import Go FetchLoop LoopFacts.

Section WithEntries.
Context {LogEntry : Type}.
Context (InsertId : LogEntry -> string).
Context (Marshal : LogEntry -> string + string).
Context (opts : list Logadmin.EntriesOption).

#[local] Abbreviation emit := (emit InsertId Marshal).
#[local] Abbreviation body := (body InsertId Marshal).
#[local] Abbreviation loop := (loop InsertId Marshal opts).
#[local] Abbreviation fetchAndProcessLogs :=
  (fetchAndProcessLogs InsertId Marshal opts).


(** C6.  In a fetched page where one entry fails to marshal and the
    others marshal, the loop prints the lines of the others in order,
    N-1 of them, logs the failure with the identifier of the entry between
    them, and ends the iteration as for any page: on to the next page, or
    done when the token is empty.  Whatever fails to marshal, a page never
    makes the loop return. *)
Theorem marshal_failure_skips :
  (forall st before e after next jsonsBefore jsonsAfter err,
      Forall2 (fun x j => Marshal x = inl j) before jsonsBefore ->
      Forall2 (fun x j => Marshal x = inl j) after jsonsAfter ->
      Marshal e = inr err ->
      exists st',
        body st (Page (before ++ e :: after) next)
        = (if String.eqb next EmptyString then BreakOuter else Continue, st')
        /\ trace st'
           = trace st
               ++ [EvNextPage (pg_token (pager st))]
               ++ (if rateLimited st then [EvLog LogRateLimitExpired] else [])
               ++ map EvPrintln jsonsBefore
               ++ [EvLog (LogMarshalError (InsertId e) err)]
               ++ map EvPrintln jsonsAfter
        /\ stdout (trace st')
           = stdout (trace st) ++ jsonsBefore ++ jsonsAfter
        /\ S (length (jsonsBefore ++ jsonsAfter))
           = length (before ++ e :: after))
  /\ (forall st entries next,
      fst (body st (Page entries next))
      = if String.eqb next EmptyString then BreakOuter else Continue).
Proof.
  split.
  - intros st before e after next jb ja err Hb Ha He.
    eexists. split; [apply body_page |]. cbn [trace].
    assert (Hemit : flat_map emit (before ++ e :: after)
                    = map EvPrintln jb
                        ++ [EvLog (LogMarshalError (InsertId e) err)]
                        ++ map EvPrintln ja).
    { rewrite flat_map_app. cbn [flat_map].
      rewrite (emit_marshaled InsertId Marshal before jb Hb).
      rewrite (emit_marshaled InsertId Marshal after ja Ha).
      unfold FetchLoop.emit at 1. now rewrite He. }
    rewrite Hemit. split; [now rewrite <- !app_assoc | split].
    + rewrite !stdout_app, !stdout_prints.
      destruct (rateLimited st); cbn; now rewrite ?app_nil_r.
    + apply Forall2_length in Hb, Ha.
      rewrite !length_app. cbn [length]. lia.
  - intros st entries next. now rewrite body_page.
Qed.

(** C7.  A streak of rate limits that starts while the loop is not
    limited and ends with a fetched page logs, in this order: the detailed
    line once, for the first error (with the quota name and value, or
    without them and followed by the error itself), a dot for each
    further error, and the notice that the limit expired once; the page
    adds only marshaling failures.  So the streak has exactly one detailed
    line and one notice, and the loop is not limited after it; nor is it
    limited at the start of a run or after any page, which is where a
    streak can start. *)
Theorem rate_limit_streak_log (st : Loop) (first : PageError)
    (more : list PageError) (entries : list LogEntry) (next : string) :
  rateLimited st = false ->
  isRateLimit first = true ->
  Forall (fun e => isRateLimit e = true) more ->
  let answers :=
    (fun _ => Failed first)
      :: map (fun e _ => Failed e) more ++ [fun _ => Page entries next] in
  let st' := final (loop answers st) in
  exists detail,
    ((exists q v, detail = [LogRateLimitQuota q v])
     \/ detail = [LogRateLimit; LogValue (err_Error first)])
    /\ logged (trace st')
       = logged (trace st)
           ++ detail ++ repeat LogDot (length more)
           ++ [LogRateLimitExpired] ++ logged (flat_map emit entries)
    /\ countLines isExceeded
         (detail ++ repeat LogDot (length more)
            ++ [LogRateLimitExpired] ++ logged (flat_map emit entries)) = 1%nat
    /\ countLines isExpired
         (detail ++ repeat LogDot (length more)
            ++ [LogRateLimitExpired] ++ logged (flat_map emit entries)) = 1%nat
    /\ rateLimited st' = false
    /\ rateLimited (final (fetchAndProcessLogs [])) = false
    /\ (forall s es n, rateLimited (snd (body s (Page es n))) = false).
Proof.
  intros Hst Hfirst Hmore answers st'.
  destruct (loop_rate_limit InsertId Marshal opts st first
              (map (fun e _ => Failed e) more ++ [fun _ => Page entries next])
              Hfirst) as (detail & Hrun1 & _ & Hdetail).
  specialize (Hdetail Hst).
  match type of Hrun1 with _ = FetchLoop.loop _ _ _ _ ?s => set (st1 := s) in * end.
  destruct (loop_limited_streak InsertId Marshal opts more st1 eq_refl Hmore)
    as (st2 & Hrun2 & Hlim2 & _ & _ & Hlog2 & _).
  assert (Hlog1 : logged (trace st1) = logged (trace st) ++ detail).
  { unfold st1. cbn [trace]. rewrite !logged_app, logged_logs. cbn.
    now rewrite !app_nil_r. }
  assert (Hfinal : logged (trace st') = logged (trace st)
             ++ detail ++ repeat LogDot (length more)
             ++ [LogRateLimitExpired] ++ logged (flat_map emit entries)
           /\ rateLimited st' = false).
  { unfold st', answers. rewrite Hrun1, Hrun2, loop_page. rewrite Hlim2.
    destruct (String.eqb next EmptyString);
      cbn [FetchLoop.loop final trace rateLimited];
      rewrite !logged_app, Hlog2, Hlog1; cbn;
      rewrite ?app_nil_r, <- ?app_assoc; split; reflexivity. }
  exists detail. split; [exact Hdetail |].
  destruct Hfinal as [Hlog Hlim]. split; [exact Hlog |].
  assert (Hdots : forall p n, p LogDot = false ->
            List.filter p (repeat LogDot n) = []).
  { intros p n Hp. induction n as [|n IH]; [reflexivity |].
    cbn [repeat List.filter]. now rewrite Hp. }
  assert (Hpage : forall p,
            (forall l, isMarshalError l = true -> p l = false) ->
            List.filter p (logged (flat_map emit entries)) = []).
  { intros p Hp.
    pose proof (logged_emit_marshal InsertId Marshal entries) as Hall.
    revert Hall. generalize (logged (flat_map emit entries)).
    induction 1 as [|l ls Hl _ IH]; [reflexivity |].
    cbn [List.filter]. now rewrite (Hp l Hl). }
  unfold countLines. rewrite !List.filter_app.
  rewrite (Hdots isExceeded _ eq_refl), (Hdots isExpired _ eq_refl).
  rewrite (Hpage isExceeded), (Hpage isExpired);
    try (intros [] Hl; (discriminate || reflexivity)).
  split; [| split; [| split; [exact Hlim | split; [reflexivity |]]]].
  - destruct Hdetail as [(q & v & ->) | ->]; reflexivity.
  - destruct Hdetail as [(q & v & ->) | ->]; reflexivity.
  - intros s es n. now rewrite body_page.
Qed.

(** C8.  A page-fetch error that is not a cancellation, not the
    exhaustion sentinel and not a rate limit, and whose status is
    Unauthenticated, makes the loop return at once, with nothing after the
    failed request: no pause, no new cursor, no further request.  The
    error returned is the instruction to authenticate again, which is not
    the error of the backend. *)
Theorem unauthenticated_stops (st : Loop) (err : PageError)
    (rest : list (string -> NextPageResult LogEntry)) :
  err_isCanceled err = false ->
  err_Error err <> noMoreItems ->
  hasRateLimitReason err = false ->
  err_status err = Some Unauthenticated ->
  loop ((fun _ => Failed err) :: rest) st
  = Finished (Some (errorsNew unauthenticatedMessage))
      {| rateLimited := false;
         currentToken := currentToken st;
         pager := pager st;
         trace := trace st ++ [EvNextPage (pg_token (pager st))] |}
  /\ errorsNew unauthenticatedMessage <> err
  /\ err_Error (errorsNew unauthenticatedMessage) = unauthenticatedMessage.
Proof.
  intros Hc Hs Hr Hu. split; [| split; [| reflexivity]].
  - cbn [FetchLoop.loop]. unfold FetchLoop.body.
    apply String.eqb_neq in Hs.
    rewrite Hc, Hs, (handle_other err _ Hr), Hu. cbn [orb].
    now rewrite app_nil_r.
  - intros Heq. rewrite <- Heq in Hu. discriminate.
Qed.

End WithEntries.

(** *** The claims on concrete runs *)

Import LoopFixture.


(** C2.  The loop does not end normally on every cancellation.  When the
    context is cancelled while a page request is in flight, the fetch
    fails with a gRPC status of code Canceled, in which [errors.Is] does
    not find [context.Canceled] and whose text is not the exhaustion
    sentinel.  The test for completion misses it, it is no rate limit and
    no Unauthenticated status, and the loop returns it as an error: here
    after a first page, whose entry was printed, and whatever answers
    would follow. *)
Theorem canceled_status_surfaces :
  err_isCanceled grpcCanceledError = false
  /\ err_status grpcCanceledError = Some Canceled
  /\ forall rest,
       exists st,
         fetchAndProcessLogs insertId marshal options
           ((fun _ => Page [e1] "t1")
              :: (fun _ => Failed grpcCanceledError) :: rest)
         = Finished (Some grpcCanceledError) st
         /\ stdout (trace st) = ["{1}"%string]
         /\ requested (trace st) = [EmptyString; "t1"%string]
         /\ logged (trace st) = []
         /\ slept (trace st) = [].
Proof.
  refine (conj eq_refl (conj eq_refl _)).
  intros rest. eexists.
  split; [reflexivity |].
  cbn [trace]. repeat split.
Qed.

Lemma marshal_failure_skips_witness :
  Forall2 (fun x j => marshal x = inl j) [e1] ["{1}"%string]
  /\ Forall2 (fun x j => marshal x = inl j) [e3] ["{3}"%string]
  /\ marshal e2 = inr "proto: field contains invalid UTF-8"
  /\ exists st',
       body insertId marshal start (Page ([e1] ++ e2 :: [e3]) "t1")
       = (Continue, st')
       /\ stdout (trace st') = stdout (trace start) ++ ["{1}"; "{3}"]%string.
Proof.
  assert (Hb : Forall2 (fun x j => marshal x = inl j) [e1] ["{1}"%string])
    by (repeat constructor).
  assert (Ha : Forall2 (fun x j => marshal x = inl j) [e3] ["{3}"%string])
    by (repeat constructor).
  refine (conj Hb (conj Ha (conj eq_refl _))).
  destruct (proj1 (marshal_failure_skips insertId marshal)
              start [e1] e2 [e3] "t1"%string _ _ _ Hb Ha eq_refl)
    as (st' & Hbody & _ & Hout & _).
  exists st'. split; [exact Hbody | exact Hout].
Defined.

Lemma rate_limit_streak_log_witness :
  rateLimited start = false
  /\ isRateLimit bareQuotaError = true
  /\ Forall (fun e => isRateLimit e = true) [quotaError]
  /\ exists detail,
       logged (trace (final (loop insertId marshal options
                 ((fun _ => Failed bareQuotaError)
                    :: map (fun e _ => Failed e) [quotaError]
                    ++ [fun _ => Page [e1; e2] "t1"]) start)))
       = logged (trace start)
           ++ detail ++ repeat LogDot 1
           ++ [LogRateLimitExpired]
           ++ logged (flat_map (emit insertId marshal) [e1; e2])
       /\ countLines isExceeded
            (detail ++ repeat LogDot 1 ++ [LogRateLimitExpired]
               ++ logged (flat_map (emit insertId marshal) [e1; e2])) = 1%nat.
Proof.
  assert (Hmore : Forall (fun e => isRateLimit e = true) [quotaError])
    by (repeat constructor).
  refine (conj eq_refl (conj eq_refl (conj Hmore _))).
  destruct (rate_limit_streak_log insertId marshal options start
              bareQuotaError [quotaError] [e1; e2] "t1" eq_refl eq_refl Hmore)
    as (detail & _ & Hlog & Hcount & _).
  exists detail. split; [exact Hlog | exact Hcount].
Defined.

Lemma unauthenticated_stops_witness :
  err_isCanceled unauthenticatedError = false
  /\ err_Error unauthenticatedError <> noMoreItems
  /\ hasRateLimitReason unauthenticatedError = false
  /\ err_status unauthenticatedError = Some Unauthenticated
  /\ loop insertId marshal options
       ((fun _ => Failed unauthenticatedError) :: [fun _ => Page [e1] "t9"])
       start
     = Finished (Some (errorsNew unauthenticatedMessage))
         {| rateLimited := false;
            currentToken := currentToken start;
            pager := pager start;
            trace := trace start ++ [EvNextPage (pg_token (pager start))] |}.
Proof.
  assert (Hsentinel : err_Error unauthenticatedError <> noMoreItems)
    by discriminate.
  refine (conj eq_refl (conj Hsentinel (conj eq_refl (conj eq_refl _)))).
  exact (proj1 (unauthenticated_stops insertId marshal options start
                  unauthenticatedError [fun _ => Page [e1] "t9"]
                  eq_refl Hsentinel eq_refl eq_refl)).
Defined.

End FetchLoopSpec.

(** ** The query builder and the list request *)

Module QueryBuilderSpec.
Import Go Regexp Cmd Facts Fixture.

Section Freshness.
Context `{Std}.

(** C3 (as amended).  On an input without a line feed [parseFreshness]
    returns, and: for [<digits>d<remainder>] and [<digits>d] alone, with a
    day count that fits [int] and a remainder accepted by the duration
    parser, the result is days*24h plus the parsed remainder whenever that
    sum fits the 64-bit nanosecond count of [time.Duration]; a string
    without a leading [<digits>d] is parsed wholly as a duration; the empty
    string, a day count beyond [int], and a remainder (or a whole string
    without day prefix, such as one with a non-numeric day count) that the
    duration parser rejects each yield the error. *)
Theorem parseFreshness_spec :
  (forall ds r other,
      forallb_string isDigit ds = true -> ds <> EmptyString ->
      noNewline r = true ->
      decimal 0 ds <= maxInt64 ->
      (r = EmptyString /\ other = 0)
      \/ (r <> EmptyString /\ ParseDuration r = (other, None)) ->
      inInt64 (decimal 0 ds * (24 * Hour) + other) ->
      parseFreshness (ds +:+ "d" +:+ r)
      = Returns (decimal 0 ds * (24 * Hour) + other, None))
  /\ (forall ds t other,
      forallb_string isDigit ds = true -> stopsAt ClDigit t ->
      ds = EmptyString \/ stopsAt (ClLit "d") t ->
      noNewline (ds +:+ t) = true -> ds +:+ t <> EmptyString ->
      ParseDuration (ds +:+ t) = (other, None) -> inInt64 other ->
      parseFreshness (ds +:+ t) = Returns (other, None))
  /\ parseFreshness EmptyString = Returns (0, invalidFreshness EmptyString)
  /\ (forall ds r,
      forallb_string isDigit ds = true -> ds <> EmptyString ->
      noNewline r = true -> maxInt64 < decimal 0 ds ->
      parseFreshness (ds +:+ "d" +:+ r)
      = Returns (0, invalidFreshness (ds +:+ "d" +:+ r)))
  /\ (forall ds r d e,
      forallb_string isDigit ds = true -> ds <> EmptyString ->
      noNewline r = true -> r <> EmptyString ->
      ParseDuration r = (d, Some e) ->
      parseFreshness (ds +:+ "d" +:+ r)
      = Returns (0, invalidFreshness (ds +:+ "d" +:+ r)))
  /\ (forall ds t d e,
      forallb_string isDigit ds = true -> stopsAt ClDigit t ->
      ds = EmptyString \/ stopsAt (ClLit "d") t ->
      noNewline (ds +:+ t) = true -> ds +:+ t <> EmptyString ->
      ParseDuration (ds +:+ t) = (d, Some e) ->
      parseFreshness (ds +:+ t) = Returns (0, invalidFreshness (ds +:+ t)))
  /\ (forall s, invalidFreshness s <> None).
Proof.
  repeat split.
  - intros ds r other Hds Hne Hr Hmax Hrem Hfit.
    rewrite (parseFreshness_days ds r Hds Hne Hr).
    apply Z.leb_le in Hmax. rewrite Hmax.
    replace (decimal 0 ds * 24 * Hour) with (decimal 0 ds * (24 * Hour))
      by ring.
    destruct Hrem as [[-> ->] | [Hr' Hpd]].
    + cbn [nonEmpty]. rewrite Z.add_0_r in *. now rewrite wrap64_id.
    + rewrite (nonEmpty_true r Hr'), Hpd. now rewrite wrap64_id.
  - intros ds t other Hds Ht Hd Hnl Hne Hpd Hfit.
    rewrite (parseFreshness_plain ds t Hds Ht Hd Hnl Hne), Hpd.
    now rewrite wrap64_id.
  - intros ds r Hds Hne Hr Hmax.
    rewrite (parseFreshness_days ds r Hds Hne Hr).
    apply Z.leb_gt in Hmax. now rewrite Hmax.
  - intros ds r d e Hds Hne Hr Hr' Hpd.
    rewrite (parseFreshness_days ds r Hds Hne Hr).
    rewrite (nonEmpty_true r Hr'), Hpd.
    now destruct (decimal 0 ds <=? maxInt64).
  - intros ds t d e Hds Ht Hd Hnl Hne Hpd.
    now rewrite (parseFreshness_plain ds t Hds Ht Hd Hnl Hne), Hpd.
  - intros s. unfold invalidFreshness. discriminate.
Qed.

End Freshness.

(** The examples of the parser's test, on the whole-number durations of
    the fixture. *)
Lemma parseFreshness_spec_witness :
  parseFreshness "1d" = Returns (24 * Hour, None)
  /\ parseFreshness "1d12h30m" = Returns (24 * Hour + 12 * Hour + 30 * Minute, None)
  /\ parseFreshness "2h" = Returns (2 * Hour, None)
  /\ parseFreshness EmptyString = Returns (0, invalidFreshness EmptyString)
  /\ parseFreshness "xd" = Returns (0, invalidFreshness "xd")
  /\ parseFreshness "1dxyz" = Returns (0, invalidFreshness "1dxyz").
Proof.
  destruct (parseFreshness_spec (H := std))
    as (Hdays & Hplain & Hempty & _ & Hrem & Hbad & _).
  refine (conj _ (conj _ (conj _ (conj Hempty (conj _ _))))).
  - apply (Hdays "1" EmptyString 0)%string;
      [reflexivity | discriminate | reflexivity | vm_compute; discriminate
      | left; split; reflexivity
      | split; vm_compute; discriminate].
  - apply (Hdays "1" "12h30m" (12 * Hour + 30 * Minute))%string;
      [reflexivity | discriminate | reflexivity | vm_compute; discriminate
      | right; split; [discriminate | reflexivity]
      | split; vm_compute; discriminate].
  - apply (Hplain "2" "h" (2 * Hour))%string;
      [reflexivity | reflexivity | right; reflexivity | reflexivity
      | discriminate | reflexivity | split; vm_compute; discriminate].
  - apply (Hbad EmptyString "xd" 0 "time: invalid duration xd")%string;
      [reflexivity | reflexivity | left; reflexivity | reflexivity
      | discriminate | reflexivity].
  - apply (Hrem "1" "xyz" 0 "time: invalid duration xyz")%string;
      [reflexivity | discriminate | reflexivity | discriminate | reflexivity].
Defined.

(** C3, the counterexample: 106752 days do not fit the 64-bit nanosecond
    count, and the parser returns the wrapped, negative duration without
    an error. *)
Lemma parseFreshness_overflow_counterexample :
  parseFreshness "106752d" = Returns (-9223371273709551616, None)
  /\ parseFreshness "106752d"
     <> Returns (106752 * (24 * Hour), None).
Proof. split; [reflexivity | vm_compute; discriminate]. Qed.

(** With a line feed in the input the pattern does not match, and
    indexing the nil slice of submatches panics. *)
Example parseFreshness_line_feed :
  parseFreshness (String "1" (String "h" (String newline EmptyString)))
  = Panics "index out of range".
Proof. reflexivity. Qed.

Section Filter.
Context `{Std}.

(** C4.  [buildFilter] returns the user filter unchanged when no window
    is set (an instant is zero), which is the empty string when there is
    no user filter either; the time predicate alone when both instants
    are set and the user filter is empty; and the parenthesized user
    filter joined to the time predicate when both are present.  The
    RFC 3339 texts hold only bytes that [%q] copies. *)
Theorem buildFilter_spec (from to : Time) (userFilter : string) :
  forallb_string plainChar (FormatRFC3339 from) = true ->
  forallb_string plainChar (FormatRFC3339 to) = true ->
  let timeFilter :=
    "timestamp >= " +:+ quoted (FormatRFC3339 from)
      +:+ " AND timestamp <= " +:+ quoted (FormatRFC3339 to) in
  (IsZero from = true \/ IsZero to = true ->
   buildFilter from to userFilter = userFilter)
  /\ (IsZero from = false -> IsZero to = false ->
      userFilter = EmptyString ->
      buildFilter from to userFilter = timeFilter)
  /\ (IsZero from = false -> IsZero to = false ->
      userFilter <> EmptyString ->
      buildFilter from to userFilter
      = "(" +:+ userFilter +:+ ") AND " +:+ timeFilter).
Proof.
  intros Hfrom Hto timeFilter. unfold buildFilter, Quote.
  rewrite Hfrom, Hto. fold timeFilter.
  refine (conj _ (conj _ _)).
  - intros [-> | ->]; cbn [negb andb]; [reflexivity |].
    now rewrite andb_false_r.
  - intros -> -> ->. reflexivity.
  - intros -> -> Hne. cbn [negb andb].
    assert (Htime : String.eqb timeFilter EmptyString = false) by reflexivity.
    rewrite Htime, eqb_empty, (nonEmpty_true userFilter Hne). reflexivity.
Qed.

End Filter.

Lemma buildFilter_spec_witness :
  FormatRFC3339 jan1 = "2024-01-01T00:00:00Z"
  /\ FormatRFC3339 jan2 = "2024-01-02T00:00:00Z"
  /\ buildFilter jan1 jan2 "severity>=ERROR"
     = "(severity>=ERROR) AND timestamp >= " +:+ quoted "2024-01-01T00:00:00Z"
         +:+ " AND timestamp <= " +:+ quoted "2024-01-02T00:00:00Z"
  /\ buildFilter jan1 jan2 EmptyString
     = "timestamp >= " +:+ quoted "2024-01-01T00:00:00Z"
         +:+ " AND timestamp <= " +:+ quoted "2024-01-02T00:00:00Z"
  /\ buildFilter zeroTime zeroTime "severity>=ERROR" = "severity>=ERROR"
  /\ buildFilter zeroTime zeroTime EmptyString = EmptyString.
Proof.
  refine (conj eq_refl (conj eq_refl (conj _ (conj _ (conj _ _))))).
  - apply (buildFilter_spec (H := std) jan1 jan2 "severity>=ERROR"
             eq_refl eq_refl); [reflexivity | reflexivity | discriminate].
  - apply (buildFilter_spec (H := std) jan1 jan2 EmptyString
             eq_refl eq_refl); reflexivity.
  - apply (buildFilter_spec (H := std) zeroTime zeroTime "severity>=ERROR"
             eq_refl eq_refl). now left.
  - apply (buildFilter_spec (H := std) zeroTime zeroTime EmptyString
             eq_refl eq_refl). now left.
Defined.

Section Window.
Context `{Std}.

(** C5 (as amended).  For flags whose freshness holds no line feed,
    [determineTimeWindow] returns, and it returns an error exactly when
    freshness comes with from or to, or freshness comes alone and is
    rejected by [parseFreshness], or exactly one of from and to is given,
    or both are given and one of them is not valid RFC 3339.  With no flag
    the window is the zero window; with from and to it is the parsed pair;
    with freshness it ends at the clock reading and starts the parsed
    duration before it. *)
Theorem determineTimeWindow_errors (now : Time) (cmd : Flags) :
  noNewline (flag_freshness cmd) = true ->
  exists from to err,
    determineTimeWindow now cmd = Returns (from, to, err)
    /\ (err <> None <->
          (flag_freshness cmd <> EmptyString
           /\ (flag_from cmd <> EmptyString \/ flag_to cmd <> EmptyString))
          \/ (flag_freshness cmd <> EmptyString
              /\ flag_from cmd = EmptyString /\ flag_to cmd = EmptyString
              /\ freshnessRejected (flag_freshness cmd))
          \/ (flag_freshness cmd = EmptyString
              /\ flag_from cmd <> EmptyString /\ flag_to cmd = EmptyString)
          \/ (flag_freshness cmd = EmptyString
              /\ flag_from cmd = EmptyString /\ flag_to cmd <> EmptyString)
          \/ (flag_freshness cmd = EmptyString
              /\ flag_from cmd <> EmptyString /\ flag_to cmd <> EmptyString
              /\ (invalidRFC3339 (flag_from cmd)
                  \/ invalidRFC3339 (flag_to cmd))))
    /\ (flag_freshness cmd = EmptyString -> flag_from cmd = EmptyString ->
        flag_to cmd = EmptyString ->
        from = zeroTime /\ to = zeroTime /\ err = None)
    /\ (flag_freshness cmd = EmptyString -> err = None ->
        flag_from cmd <> EmptyString ->
        ParseRFC3339 (flag_from cmd) = (from, None)
        /\ ParseRFC3339 (flag_to cmd) = (to, None))
    /\ (flag_freshness cmd <> EmptyString -> err = None ->
        exists dur, parseFreshness (flag_freshness cmd) = Returns (dur, None)
                    /\ to = now /\ from = Add now (wrap64 (- dur))).
Proof.
  destruct cmd as [f a b]. cbn [flag_freshness flag_from flag_to].
  intros Hnl. unfold determineTimeWindow, freshnessRejected, invalidRFC3339.
  cbn [flag_freshness flag_from flag_to].
  destruct (nonEmpty f) eqn:Hf; destruct (nonEmpty a) eqn:Ha;
    destruct (nonEmpty b) eqn:Hb; cbn [orb andb negb];
    rewrite ?nonEmpty_true_iff, ?nonEmpty_false_iff in *; subst.
  all: try (eexists _, _, _; split; [reflexivity |];
            repeat split; try congruence; try naive_solver; fail).
  - destruct (parseFreshness_returns f Hnl) as (d & e & Hp). rewrite Hp.
    cbn [mbind Outcome_bind].
    destruct e as [e|]; (eexists _, _, _; split; [reflexivity |]);
      repeat split; try congruence; try naive_solver.
  - destruct (ParseRFC3339 a) as [fa [ea|]] eqn:Ea;
      [| destruct (ParseRFC3339 b) as [tb [eb|]] eqn:Eb];
      (eexists _, _, _; split; [reflexivity |]);
      cbn [snd]; repeat split; try congruence; try naive_solver.
Qed.

End Window.

Lemma determineTimeWindow_errors_witness :
  noNewline (flag_freshness dayWindow) = true
  /\ exists from to err,
       determineTimeWindow jan2 dayWindow = Returns (from, to, err)
       /\ (flag_freshness dayWindow = EmptyString -> err = None ->
           flag_from dayWindow <> EmptyString ->
           ParseRFC3339 (flag_from dayWindow) = (from, None)
           /\ ParseRFC3339 (flag_to dayWindow) = (to, None)).
Proof.
  split; [reflexivity |].
  destruct (determineTimeWindow_errors (H := std) jan2 dayWindow eq_refl)
    as (from & to & err & Hrun & _ & _ & Hpair & _).
  exists from, to, err. split; [exact Hrun | exact Hpair].
Defined.

(** C5, the counterexample: a freshness that is not a duration, given
    alone, is an error although no two flags conflict and no RFC 3339
    value is involved. *)
Lemma determineTimeWindow_counterexample :
  let cmd := {| flag_freshness := "xyz";
                flag_from := EmptyString; flag_to := EmptyString |} in
  determineTimeWindow jan2 cmd
  = Returns (zeroTime, zeroTime, invalidFreshness "xyz")
  /\ invalidFreshness "xyz" <> None
  /\ flag_from cmd = EmptyString /\ flag_to cmd = EmptyString.
Proof. repeat split. discriminate. Qed.

Section Lookback.
Context `{Std}.
Import Logadmin.

(** C10.  The filter of the request that [listLogEntriesRequest] builds:
    the 24-hour predicate alone when the assembled filter is empty; the
    assembled filter with that predicate appended by AND when it is not
    empty and its lower-cased text holds no "timestamp"; the assembled
    filter itself when its lower-cased text holds "timestamp" anywhere. *)
Theorem listLogEntriesRequest_filter (now : Time) (parent : string)
    (opts : list EntriesOption) :
  let assembled := Filter (applyOptions parent opts) in
  let lookback :=
    "timestamp >= "
      +:+ quoted (FormatRFC3339 (UTC (Add now (- (24 * Hour))))) in
  let sent := Filter (listLogEntriesRequest now parent opts) in
  (assembled = EmptyString -> sent = lookback)
  /\ (assembled <> EmptyString ->
      ~ (exists a b, ToLower assembled = a +:+ "timestamp" +:+ b) ->
      sent = assembled +:+ " AND " +:+ lookback)
  /\ ((exists a b, ToLower assembled = a +:+ "timestamp" +:+ b) ->
      sent = assembled).
Proof.
  intros assembled lookback sent.
  unfold sent, listLogEntriesRequest, defaultTimestampFilter.
  cbn [Filter]. fold assembled. rewrite wrap64_day. fold lookback.
  refine (conj _ (conj _ _)).
  - intros ->. reflexivity.
  - intros Hne Hno.
    destruct assembled as [|c rest] eqn:Ha; [congruence |].
    cbn [String.length Nat.eqb].
    destruct (Contains (ToLower (String c rest)) "timestamp") eqn:Hc.
    + exfalso. apply Hno. now apply Contains_spec.
    + reflexivity.
  - intros Hyes. apply Contains_spec in Hyes.
    destruct assembled as [|c rest] eqn:Ha.
    + exfalso. clear -Hyes. unfold ToLower in Hyes. discriminate.
    + cbn [String.length Nat.eqb]. now rewrite Hyes.
Qed.

End Lookback.

Lemma listLogEntriesRequest_filter_witness :
  Logadmin.Filter
    (Logadmin.listLogEntriesRequest jan2 "projects/p"
       [Logadmin.pageSize 1000; Logadmin.filter "jsonPayload.msg:TimeStamp"])
  = "jsonPayload.msg:TimeStamp"
  /\ Logadmin.Filter
       (Logadmin.listLogEntriesRequest jan2 "projects/p"
          [Logadmin.pageSize 1000; Logadmin.filter "severity>=ERROR"])
     = "severity>=ERROR AND timestamp >= " +:+ quoted "2024-01-01T00:00:00Z"
  /\ Logadmin.Filter
       (Logadmin.listLogEntriesRequest jan2 "projects/p"
          [Logadmin.pageSize 1000])
     = "timestamp >= " +:+ quoted "2024-01-01T00:00:00Z".
Proof.
  refine (conj _ (conj _ _)).
  - apply (listLogEntriesRequest_filter (H := std) jan2 "projects/p"
             [Logadmin.pageSize 1000;
              Logadmin.filter "jsonPayload.msg:TimeStamp"]).
    now exists "jsonpayload.msg:"%string, EmptyString.
  - apply (listLogEntriesRequest_filter (H := std) jan2 "projects/p"
             [Logadmin.pageSize 1000; Logadmin.filter "severity>=ERROR"]);
      [discriminate |].
    intros Hyes. apply Contains_spec in Hyes. discriminate.
  - now apply (listLogEntriesRequest_filter (H := std) jan2 "projects/p"
                 [Logadmin.pageSize 1000]).
Defined.

Section Unset.
Context `{Std}.

(** C9 (as amended).  With no time flag, and a project given,
    [determineTimeWindow] returns the zero window and [buildFilter]
    returns the user filter as it is; the request that [Run] then builds
    through the vendored client carries [defaultTimestampFilter] of the
    user filter: the program itself adds the 24-hour predicate, taken from
    its own clock, unless the lower-cased user filter holds "timestamp". *)
Theorem unset_window_request (now now' : Time) (projectId order : string)
    (args : list string) :
  IsZero zeroTime = true ->
  projectId <> EmptyString ->
  let userFilter := match args with a :: _ => a | [] => EmptyString end in
  let lookback :=
    "timestamp >= "
      +:+ quoted (FormatRFC3339 (UTC (Add now' (- (24 * Hour))))) in
  determineTimeWindow now noFlags = Returns (zeroTime, zeroTime, None)
  /\ buildFilter zeroTime zeroTime userFilter = userFilter
  /\ exists req,
       runRequest now now' projectId order noFlags args = Returns (inr req)
       /\ Logadmin.Filter req
          = Logadmin.defaultTimestampFilter now' userFilter
       /\ (userFilter = EmptyString -> Logadmin.Filter req = lookback)
       /\ (userFilter <> EmptyString ->
           Contains (ToLower userFilter) "timestamp" = false ->
           Logadmin.Filter req = userFilter +:+ " AND " +:+ lookback)
       /\ (Contains (ToLower userFilter) "timestamp" = true ->
           Logadmin.Filter req = userFilter).
Proof.
  intros Hzero Hproject userFilter lookback.
  assert (Hbuild : buildFilter zeroTime zeroTime userFilter = userFilter).
  { unfold buildFilter. now rewrite Hzero. }
  refine (conj eq_refl (conj Hbuild _)).
  unfold runRequest.
  rewrite eqb_empty, (nonEmpty_true projectId Hproject).
  cbn [negb determineTimeWindow noFlags flag_freshness flag_from flag_to
       nonEmpty andb orb mbind Outcome_bind].
  fold userFilter. rewrite Hbuild.
  eexists. split; [reflexivity |].
  unfold Logadmin.listLogEntriesRequest.
  rewrite applyOptions_entriesOptions. cbn [Logadmin.Filter].
  split; [reflexivity |].
  unfold Logadmin.defaultTimestampFilter. rewrite wrap64_day. fold lookback.
  refine (conj _ (conj _ _)).
  - intros ->. reflexivity.
  - intros Hne Hno. rewrite Hno.
    destruct userFilter; [congruence | reflexivity].
  - intros Hyes. rewrite Hyes.
    destruct userFilter; [discriminate Hyes | reflexivity].
Qed.

End Unset.

Lemma unset_window_request_witness :
  IsZero zeroTime = true
  /\ "my-project"%string <> EmptyString
  /\ exists req,
       runRequest jan2 jan2 "my-project" "desc" noFlags ["severity>=ERROR"%string]
       = Returns (inr req)
       /\ Logadmin.Filter req
          = Logadmin.defaultTimestampFilter jan2 "severity>=ERROR".
Proof.
  refine (conj eq_refl (conj _ _)); [discriminate |].
  destruct (unset_window_request (H := std) jan2 jan2 "my-project" "desc"
              ["severity>=ERROR"%string] eq_refl ltac:(discriminate))
    as (_ & _ & req & Hrun & Hfilter & _).
  exists req. split; [exact Hrun | exact Hfilter].
Defined.

(** C9, the counterexample: with no time flag and no user filter the
    request of the program is not left without a time filter for the
    service to fill in; it asks for the entries since one day before the
    clock reading of the program. *)
Lemma default_lookback_counterexample :
  runRequest jan2 jan2 "my-project" "desc" noFlags []
  = Returns (inr {| Logadmin.ResourceNames := ["projects/my-project"%string];
                    Logadmin.Filter :=
                      "timestamp >= " +:+ quoted "2024-01-01T00:00:00Z";
                    Logadmin.OrderBy := "timestamp desc";
                    Logadmin.PageSize := 1000 |})
  /\ "timestamp >= " +:+ quoted "2024-01-01T00:00:00Z" <> EmptyString.
Proof. split; [reflexivity | discriminate]. Qed.

End QueryBuilderSpec.

(** * Further properties *)

(** ** Lower case and the default filter *)

Module TextFacts.
Import Go Facts.

Lemma map_string_append f (a b : string) :
  map_string f (a +:+ b) = map_string f a +:+ map_string f b.
Proof.
  induction a as [|c a IH]; [reflexivity |].
  rewrite append_cons. cbn [map_string]. now rewrite IH.
Qed.

Lemma plain_isASCII (s : string) :
  forallb_string plainChar s = true -> forallb_string isASCII s = true.
Proof.
  induction s as [|c s IH]; [reflexivity |]. cbn [forallb_string].
  rewrite !andb_true_iff. intros [Hc Hs]. split; [| now apply IH].
  unfold plainChar in Hc. unfold isASCII.
  rewrite !andb_true_iff in Hc. lia.
Qed.

Section WithStd.
Context `{Std}.

Lemma ToLower_mentions_timestamp (a b : string) :
  forallb_string isASCII a = true -> forallb_string isASCII b = true ->
  Contains (ToLower (a +:+ "timestamp" +:+ b)) "timestamp" = true.
Proof.
  intros Ha Hb. unfold ToLower.
  rewrite !forallb_string_append, Ha, Hb. cbn [andb].
  replace (forallb_string isASCII "timestamp") with true by reflexivity.
  cbn [andb]. rewrite !map_string_append.
  apply Contains_spec. now eexists _, _.
Qed.

Lemma default_keeps (now' : Time) (f : string) :
  f <> EmptyString -> Contains (ToLower f) "timestamp" = true ->
  Logadmin.defaultTimestampFilter now' f = f.
Proof.
  intros Hne Hc. unfold Logadmin.defaultTimestampFilter. rewrite Hc.
  now destruct f.
Qed.

End WithStd.
End TextFacts.

(** ** The fetch loop over whole runs *)

Module FetchLoopRuns.
Import Go FetchLoop LoopFacts LoopReading.

Lemma opened_app a b : opened (a ++ b) = opened a ++ opened b.
Proof. apply flat_map_app. Qed.

Lemma pagers_app a b : pagers (a ++ b) = pagers a ++ pagers b.
Proof. apply flat_map_app. Qed.

Lemma opened_logs lines : opened (map EvLog lines) = [].
Proof. induction lines; [reflexivity | exact IHlines]. Qed.

Lemma slept_logs lines : slept (map EvLog lines) = [].
Proof. induction lines; [reflexivity | exact IHlines]. Qed.

Lemma pagers_logs lines : pagers (map EvLog lines) = [].
Proof. induction lines; [reflexivity | exact IHlines]. Qed.

Lemma countLines_app p a b :
  countLines p (a ++ b) = (countLines p a + countLines p b)%nat.
Proof. unfold countLines. now rewrite List.filter_app, length_app. Qed.

Lemma nonEmpty_default (o : option string) :
  nonEmpty (default EmptyString o) = true ->
  exists x, o = Some x /\ x <> EmptyString.
Proof.
  destruct o as [x|]; cbn; [| discriminate].
  intros Hx. exists x. split; [reflexivity |]. now destruct x.
Qed.

(** X5.  [handleRateLimitError] reports a rate limit exactly for an
    [APIError] with the rate-limit reason, and then pauses once for one
    second; for any other error it logs and pauses nothing.  The line with
    the quota is logged only at the first error of a streak and only with
    a quota name and value that are both in the metadata and not empty;
    when either is missing or empty the plain line and the error itself
    are logged instead. *)
Theorem quota_line_needs_both_values (err : PageError) (limited : bool) :
  let '(isLimited, evs) := handleRateLimitError err limited in
  isLimited = hasRateLimitReason err
  /\ slept evs = (if isLimited then [1 * Second] else [])
  /\ (isLimited = false -> evs = [])
  /\ (forall q v,
        In (EvLog (LogRateLimitQuota q v)) evs ->
        limited = false /\ q <> EmptyString /\ v <> EmptyString
        /\ exists apiErr,
             err_APIError err = Some apiErr
             /\ Metadata apiErr !! "quota_limit"%string = Some q
             /\ Metadata apiErr !! "quota_limit_value"%string = Some v)
  /\ (forall apiErr,
        err_APIError err = Some apiErr ->
        hasRateLimitReason err = true -> limited = false ->
        default EmptyString (Metadata apiErr !! "quota_limit"%string)
        = EmptyString
        \/ default EmptyString
             (Metadata apiErr !! "quota_limit_value"%string)
           = EmptyString ->
        evs = [EvLog LogRateLimit; EvLog (LogValue (err_Error err));
               EvSleep (1 * Second)]).
Proof.
  unfold handleRateLimitError, hasRateLimitReason.
  destruct (err_APIError err) as [apiErr|] eqn:Hapi.
  2:{ split; [reflexivity | split; [reflexivity | split; [reflexivity |]]].
      split; [intros q v [] | discriminate]. }
  destruct (String.eqb (Reason apiErr) "RATE_LIMIT_EXCEEDED") eqn:Hreason.
  2:{ split; [reflexivity | split; [reflexivity | split; [reflexivity |]]].
      split; [intros q v [] | intros a _ Hx; discriminate Hx]. }
  destruct limited; cbn [negb].
  - split; [reflexivity | split; [reflexivity | split; [discriminate |]]].
    split; [| intros a _ _ Hx; discriminate Hx].
    intros q v [Hq | [Hq | []]]; discriminate.
  - destruct (nonEmpty (default EmptyString
                          (Metadata apiErr !! "quota_limit"%string))) eqn:Hq;
    destruct (nonEmpty
                (default EmptyString
                   (Metadata apiErr !! "quota_limit_value"%string))) eqn:Hv;
    cbn [andb app];
    (split; [reflexivity | split; [reflexivity | split; [discriminate |]]]).
    + split.
      * apply nonEmpty_default in Hq as (q0 & Hq0 & Hqne).
        apply nonEmpty_default in Hv as (v0 & Hv0 & Hvne).
        intros q v [Hin | [Hin | []]]; [| discriminate].
        rewrite Hq0, Hv0 in Hin. cbn in Hin. injection Hin as <- <-.
        split; [reflexivity | split; [exact Hqne | split; [exact Hvne |]]].
        exists apiErr. auto.
      * intros a Ha _ _ [Hnone | Hnone]; injection Ha as <-;
          [rewrite Hnone in Hq | rewrite Hnone in Hv]; discriminate.
    + split; [| intros; reflexivity].
      intros q v [Hin | [Hin | [Hin | []]]]; discriminate.
    + split; [| intros; reflexivity].
      intros q v [Hin | [Hin | [Hin | []]]]; discriminate.
    + split; [| intros; reflexivity].
      intros q v [Hin | [Hin | [Hin | []]]]; discriminate.
Qed.

Section WithEntries.
Context {LogEntry : Type}.
Context (InsertId : LogEntry -> string).
Context (Marshal : LogEntry -> string + string).
Context (opts : list Logadmin.EntriesOption).

#[local] Abbreviation emit := (emit InsertId Marshal).
#[local] Abbreviation body := (body InsertId Marshal).
#[local] Abbreviation loop := (loop InsertId Marshal opts).
#[local] Abbreviation fetchAndProcessLogs :=
  (fetchAndProcessLogs InsertId Marshal opts).

Lemma opened_emit entries : opened (flat_map emit entries) = [].
Proof.
  induction entries as [|e entries IH]; [reflexivity |].
  cbn [flat_map]. rewrite opened_app, IH. unfold FetchLoop.emit.
  now destruct (Marshal e).
Qed.

Lemma pagers_emit entries : pagers (flat_map emit entries) = [].
Proof.
  induction entries as [|e entries IH]; [reflexivity |].
  cbn [flat_map]. rewrite pagers_app, IH. unfold FetchLoop.emit.
  now destruct (Marshal e).
Qed.

Lemma stdout_emit entries :
  stdout (flat_map emit entries) = printed Marshal entries.
Proof.
  induction entries as [|e entries IH]; [reflexivity |].
  cbn [flat_map]. rewrite stdout_app, IH. unfold printed at 2.
  cbn [flat_map]. unfold FetchLoop.emit. now destruct (Marshal e).
Qed.

(** What an iteration does that is not a rate limit. *)
Lemma body_failed_other st err :
  err_isCanceled err = false ->
  err_Error err <> noMoreItems ->
  hasRateLimitReason err = false ->
  body st (Failed err)
  = (Return (match err_status err with
             | Some Unauthenticated => errorsNew unauthenticatedMessage
             | _ => err
             end),
     {| rateLimited := false;
        currentToken := currentToken st;
        pager := pager st;
        trace := trace st ++ [EvNextPage (pg_token (pager st))] |}).
Proof.
  intros Hc Hs Hr. unfold FetchLoop.body.
  apply String.eqb_neq in Hs.
  rewrite Hc, Hs, (handle_other err _ Hr). cbn [orb]. rewrite app_nil_r.
  destruct (err_status err) as [[]|]; reflexivity.
Qed.

Lemma body_failed_end st err :
  err_isCanceled err || String.eqb (err_Error err) noMoreItems = true ->
  body st (Failed err)
  = (BreakOuter,
     {| rateLimited := rateLimited st;
        currentToken := currentToken st;
        pager := pager st;
        trace := trace st ++ [EvNextPage (pg_token (pager st))] |}).
Proof. intros He. unfold FetchLoop.body. now rewrite He. Qed.

(** The three ways an error is taken. *)
Lemma error_cases err :
  err_isCanceled err || String.eqb (err_Error err) noMoreItems = true
  \/ isRateLimit err = true
  \/ (err_isCanceled err = false /\ err_Error err <> noMoreItems
      /\ hasRateLimitReason err = false).
Proof.
  unfold isRateLimit.
  destruct (err_isCanceled err); [now left |].
  destruct (String.eqb_spec (err_Error err) noMoreItems) as [Hs|Hs];
    [now left |].
  destruct (hasRateLimitReason err); [right; now left | right; right; auto].
Qed.

(** X1.  A page-fetch error that is not a cancellation, not the
    exhaustion sentinel, not a rate limit and not an Unauthenticated
    status ends the loop at once with that very error: nothing is logged,
    no pause is taken and no further page is asked for. *)
Theorem other_error_surfaces (st : Loop) (err : PageError)
    (rest : list (string -> NextPageResult LogEntry)) :
  err_isCanceled err = false ->
  err_Error err <> noMoreItems ->
  hasRateLimitReason err = false ->
  err_status err <> Some Unauthenticated ->
  loop ((fun _ => Failed err) :: rest) st
  = Finished (Some err)
      {| rateLimited := false;
         currentToken := currentToken st;
         pager := pager st;
         trace := trace st ++ [EvNextPage (pg_token (pager st))] |}.
Proof.
  intros Hc Hs Hr Hu. cbn [FetchLoop.loop].
  rewrite (body_failed_other st err Hc Hs Hr).
  destruct (err_status err) as [[]|]; congruence.
Qed.

(** Pages with a next token: what is printed and what is asked for. *)
Lemma loop_pages_output pages : forall st,
  Forall (fun p : list LogEntry * string => snd p <> EmptyString) pages ->
  exists st',
    (forall answers,
        loop (map (fun p _ => Page (fst p) (snd p)) pages ++ answers) st
        = loop answers st')
    /\ stdout (trace st')
       = stdout (trace st) ++ flat_map (printed Marshal) (map fst pages)
    /\ requested (trace st') ++ [pg_token (pager st')]
       = requested (trace st) ++ pg_token (pager st) :: map snd pages
    /\ opened (trace st') = opened (trace st).
Proof.
  induction pages as [|[entries next] pages IH]; intros st Hpages.
  - exists st. cbn. rewrite app_nil_r. auto.
  - apply Forall_cons in Hpages as [Hnext Hpages]. cbn [fst snd] in Hnext.
    apply String.eqb_neq in Hnext.
    set (st1 := {| rateLimited := false;
                   currentToken := next;
                   pager := {| pg_pageSize := pg_pageSize (pager st);
                               pg_token := next |};
                   trace := ((trace st ++ [EvNextPage (pg_token (pager st))])
                               ++ (if rateLimited st
                                   then [EvLog LogRateLimitExpired] else []))
                              ++ flat_map emit entries |}).
    destruct (IH st1 Hpages) as (st' & Hloop & Hout & Hreq & Hopen).
    exists st'. split; [| split; [| split]].
    + intros answers. cbn [map app fst snd].
      rewrite loop_page, Hnext. apply Hloop.
    + rewrite Hout. unfold st1. cbn [trace map flat_map fst].
      rewrite !stdout_app, stdout_emit.
      destruct (rateLimited st); cbn; now rewrite ?app_nil_r, <- ?app_assoc.
    + rewrite Hreq. unfold st1. cbn [trace pager pg_token map snd].
      rewrite !requested_app, requested_emit.
      destruct (rateLimited st); cbn; now rewrite ?app_nil_r, <- ?app_assoc.
    + rewrite Hopen. unfold st1. cbn [trace].
      rewrite !opened_app, opened_emit.
      destruct (rateLimited st); cbn; now rewrite ?app_nil_r.
Qed.

(** X2.  Over pages that each give a next token, and a last page with
    the empty token, the loop prints the lines of the entries that marshal
    in the order of the pages and of the entries in them, asks for the
    first page with the empty token and for each later page with the token
    the page before returned, and uses the one cursor it opened. *)
Theorem pages_printed_in_order
    (pages : list (list LogEntry * string)) (entries : list LogEntry)
    (rest : list (string -> NextPageResult LogEntry)) :
  Forall (fun p => snd p <> EmptyString) pages ->
  exists st,
    fetchAndProcessLogs
      (map (fun p _ => Page (fst p) (snd p)) pages
         ++ (fun _ => Page entries EmptyString) :: rest)
    = Finished None st
    /\ stdout (trace st)
       = flat_map (printed Marshal) (map fst pages ++ [entries])
    /\ requested (trace st) = EmptyString :: map snd pages
    /\ opened (trace st) = [opts].
Proof.
  intros Hpages.
  destruct (loop_pages_output pages (openCursor opts false EmptyString [])
              Hpages) as (st' & Hrun & Hout & Hreq & Hopen).
  eexists. split; [| split; [| split]].
  - unfold FetchLoop.fetchAndProcessLogs. rewrite Hrun, loop_page.
    reflexivity.
  - cbn [trace]. rewrite !stdout_app, stdout_emit, Hout, flat_map_app.
    destruct (rateLimited st'); cbn; now rewrite ?app_nil_r.
  - cbn [trace]. rewrite !requested_app, requested_emit.
    replace (requested [EvNextPage (pg_token (pager st'))])
      with [pg_token (pager st')] by reflexivity.
    destruct (rateLimited st'); cbn [requested flat_map app];
      rewrite ?app_nil_r, Hreq; reflexivity.
  - cbn [trace]. rewrite !opened_app, opened_emit, Hopen.
    destruct (rateLimited st'); reflexivity.
Qed.

(** *** Invariants of a run *)

Lemma cursors_quiet tr evs :
  cursorsMatchPauses opts tr ->
  opened evs = [] -> slept evs = [] -> pagers evs = [] ->
  cursorsMatchPauses opts (tr ++ evs).
Proof.
  unfold cursorsMatchPauses. intros Htr Ho Hs Hp.
  now rewrite opened_app, slept_app, pagers_app, Ho, Hs, Hp, !app_nil_r.
Qed.

Lemma cursors_retry tr tok :
  cursorsMatchPauses opts tr ->
  cursorsMatchPauses opts
    (tr ++ [EvSleep (1 * Second); EvEntries opts; EvNewPager 1000 tok]).
Proof.
  unfold cursorsMatchPauses. intros (Hn & Hs & Ho & Hpn & Hp).
  rewrite opened_app, slept_app, pagers_app. cbn.
  rewrite !length_app. cbn [length].
  repeat split.
  - lia.
  - apply Forall_app. split; [exact Hs | now constructor].
  - apply Forall_app. split; [exact Ho | now constructor].
  - lia.
  - apply Forall_app. split; [exact Hp | now constructor].
Qed.

Lemma loop_cursors answers : forall st,
  cursorsMatchPauses opts (trace st) ->
  cursorsMatchPauses opts (trace (final (loop answers st))).
Proof.
  induction answers as [|answer answers IH]; intros st Hst; [exact Hst |].
  cbn [FetchLoop.loop].
  destruct (answer (pg_token (pager st))) as [entries next|err].
  - rewrite body_page.
    assert (Hpage : cursorsMatchPauses opts
              (((trace st ++ [EvNextPage (pg_token (pager st))])
                  ++ (if rateLimited st then [EvLog LogRateLimitExpired]
                      else []))
                 ++ flat_map emit entries)).
    { rewrite <- !app_assoc. apply cursors_quiet; [exact Hst | | |].
      - rewrite !opened_app, opened_emit. now destruct (rateLimited st).
      - rewrite !slept_app, slept_emit. now destruct (rateLimited st).
      - rewrite !pagers_app, pagers_emit. now destruct (rateLimited st). }
    destruct (String.eqb next EmptyString); [exact Hpage |].
    apply IH. exact Hpage.
  - destruct (error_cases err) as [Hend | [Hrl | (Hc & Hs & Hr)]].
    + rewrite (body_failed_end st err Hend). cbn [final trace].
      now apply cursors_quiet.
    + destruct (body_rate_limit InsertId Marshal st err Hrl)
        as (lines & Hb & _).
      rewrite Hb. apply IH. cbn [openCursor trace rateLimited currentToken].
      unfold FetchLoop.openCursor. cbn [trace].
      replace (((trace st ++ [EvNextPage (pg_token (pager st))])
                  ++ map EvLog lines ++ [EvSleep (1 * Second)])
                 ++ [EvEntries opts; EvNewPager 1000 (currentToken st)])
        with ((trace st ++ [EvNextPage (pg_token (pager st))]
                 ++ map EvLog lines)
                ++ [EvSleep (1 * Second); EvEntries opts;
                    EvNewPager 1000 (currentToken st)])
        by (rewrite <- !app_assoc; reflexivity).
      apply cursors_retry.
      apply cursors_quiet; [exact Hst | | |].
      * now rewrite opened_app, opened_logs.
      * now rewrite slept_app, slept_logs.
      * now rewrite pagers_app, pagers_logs.
    + rewrite (body_failed_other st err Hc Hs Hr). cbn [final trace].
      now apply cursors_quiet.
Qed.

(** X18.  When the answers are N-1 pages with a next token and then a
    page with the empty token, the loop returns nil after exactly N page
    requests and without a pause, whatever answers would follow; and an
    error in which [errors.Is] finds [context.Canceled], or whose text is
    the exhaustion sentinel, makes the loop return nil with nothing after
    the failed request. *)
Theorem fetch_loop_terminates :
  (forall (pages : list (list LogEntry * string)) entries rest,
      Forall (fun p => snd p <> EmptyString) pages ->
      exists st,
        fetchAndProcessLogs
          (map (fun p _ => Page (fst p) (snd p)) pages
             ++ (fun _ => Page entries EmptyString) :: rest)
        = Finished None st
        /\ length (requested (trace st)) = S (length pages)
        /\ slept (trace st) = [])
  /\ (forall st err rest,
      err_isCanceled err = true \/ err_Error err = noMoreItems ->
      loop ((fun _ => Failed err) :: rest) st
      = Finished None
          {| rateLimited := rateLimited st;
             currentToken := currentToken st;
             pager := pager st;
             trace := trace st ++ [EvNextPage (pg_token (pager st))] |}).
Proof.
  split.
  - intros pages entries rest Hpages.
    destruct (loop_pages InsertId Marshal opts pages
                (openCursor opts false EmptyString []) Hpages)
      as (st' & Hrun & Hreq & Hslept).
    eexists. split; [| split].
    + unfold FetchLoop.fetchAndProcessLogs. rewrite Hrun, loop_page.
      reflexivity.
    + cbn [trace]. rewrite !requested_app, requested_emit, !length_app, Hreq.
      destruct (rateLimited st'); cbn; lia.
    + cbn [trace]. rewrite !slept_app, slept_emit, Hslept.
      now destruct (rateLimited st').
  - intros st err rest Hend. cbn [FetchLoop.loop]. unfold FetchLoop.body.
    replace (err_isCanceled err || String.eqb (err_Error err) noMoreItems)
      with true; [reflexivity |].
    symmetry. apply orb_true_iff.
    destruct Hend as [-> | ->]; [now left | right; apply String.eqb_refl].
Qed.

(** X3.  Whatever the answers, a run opens one cursor at the start and
    one more after each pause and never otherwise; every pause lasts
    one second; every cursor is opened with the options of the call and
    gets one pager of 1000 entries. *)
Theorem cursors_match_pauses
    (answers : list (string -> NextPageResult LogEntry)) :
  let tr := trace (final (fetchAndProcessLogs answers)) in
  length (opened tr) = S (length (slept tr))
  /\ Forall (fun d => d = 1 * Second) (slept tr)
  /\ Forall (fun o => o = opts) (opened tr)
  /\ length (pagers tr) = length (opened tr)
  /\ Forall (fun p : Z * string => fst p = 1000) (pagers tr).
Proof.
  apply (loop_cursors answers (openCursor opts false EmptyString [])).
  unfold cursorsMatchPauses. cbn. repeat split; try (now repeat constructor).
Qed.

Lemma countLines_emit p entries :
  (forall l, isMarshalError l = true -> p l = false) ->
  countLines p (logged (flat_map emit entries)) = 0%nat.
Proof.
  intros Hp. unfold countLines.
  pose proof (logged_emit_marshal InsertId Marshal entries) as Hall.
  revert Hall. generalize (logged (flat_map emit entries)).
  induction 1 as [|l ls Hl _ IH]; [reflexivity |].
  cbn [List.filter]. now rewrite (Hp l Hl).
Qed.

Lemma loop_balance answers : forall st,
  noticesBalanced st ->
  match loop answers st with
  | Waiting s | Finished None s => noticesBalanced s
  | Finished (Some _) s =>
      (countLines isExpired (logged (trace s))
       <= countLines isExceeded (logged (trace s))
       <= S (countLines isExpired (logged (trace s))))%nat
  end.
Proof.
  induction answers as [|answer answers IH]; intros st Hst; [exact Hst |].
  cbn [FetchLoop.loop].
  destruct (answer (pg_token (pager st))) as [entries next|err].
  - rewrite body_page.
    assert (Hpage : forall tok,
              noticesBalanced
                {| rateLimited := false;
                   currentToken := tok;
                   pager := {| pg_pageSize := pg_pageSize (pager st);
                               pg_token := next |};
                   trace := ((trace st ++ [EvNextPage (pg_token (pager st))])
                               ++ (if rateLimited st
                                   then [EvLog LogRateLimitExpired] else []))
                              ++ flat_map emit entries |}).
    { intros tok. unfold noticesBalanced in *. cbn [trace rateLimited].
      rewrite !logged_app, !countLines_app.
      rewrite !countLines_emit
        by (intros [] Hl; (discriminate || reflexivity)).
      destruct (rateLimited st); cbn; unfold countLines in *; cbn; lia. }
    destruct (String.eqb next EmptyString); [apply Hpage |].
    apply IH, Hpage.
  - destruct (error_cases err) as [Hend | [Hrl | (Hc & Hs & Hr)]].
    + rewrite (body_failed_end st err Hend).
      unfold noticesBalanced in *. cbn [trace rateLimited].
      rewrite logged_app, !countLines_app. cbn. unfold countLines in *. cbn.
      lia.
    + destruct (body_rate_limit InsertId Marshal st err Hrl)
        as (lines & Hb & Hdot & Hdetail).
      rewrite Hb. apply IH.
      unfold noticesBalanced in *. unfold FetchLoop.openCursor.
      cbn [trace rateLimited].
      rewrite !logged_app, logged_logs, !countLines_app.
      destruct (rateLimited st).
      * rewrite (Hdot eq_refl). cbn. unfold countLines in *. cbn. lia.
      * destruct (Hdetail eq_refl) as [(q & v & ->) | ->];
          cbn; unfold countLines in *; cbn; lia.
    + rewrite (body_failed_other st err Hc Hs Hr).
      unfold noticesBalanced in Hst. cbn [trace].
      rewrite logged_app, !countLines_app. cbn. unfold countLines in *. cbn.
      destruct (rateLimited st); lia.
Qed.

(** X4.  Whatever the answers, the log never holds more expiry notices
    than detailed rate-limit lines, and at most one detailed line is
    without its notice; unless the run returned an error, that is so
    exactly when the loop is rate limited at the end. *)
Theorem notices_balanced
    (answers : list (string -> NextPageResult LogEntry)) :
  let run := fetchAndProcessLogs answers in
  let lines := logged (trace (final run)) in
  (countLines isExpired lines <= countLines isExceeded lines
   <= S (countLines isExpired lines))%nat
  /\ match run with
     | Finished (Some _) _ => True
     | _ => countLines isExceeded lines
            = (countLines isExpired lines
               + (if rateLimited (final run) then 1 else 0))%nat
     end.
Proof.
  intros run lines.
  pose proof (loop_balance answers (openCursor opts false EmptyString [])
                eq_refl) as Hrun.
  fold (fetchAndProcessLogs answers) in Hrun. fold run in Hrun.
  unfold lines. destruct run as [s | [e|] s]; cbn [final] in *.
  - unfold noticesBalanced in Hrun. split; [| exact Hrun].
    destruct (rateLimited s); lia.
  - split; [exact Hrun | exact I].
  - unfold noticesBalanced in Hrun. split; [| exact Hrun].
    destruct (rateLimited s); lia.
Qed.

End WithEntries.

(** *** On concrete runs *)

Import LoopFixture MoreFixture.

Lemma other_error_surfaces_witness :
  err_isCanceled deniedError = false
  /\ err_Error deniedError <> noMoreItems
  /\ hasRateLimitReason deniedError = false
  /\ err_status deniedError <> Some Unauthenticated
  /\ loop insertId marshal options
       ((fun _ => Failed deniedError) :: [fun _ => Page [e1] "t9"]) start
     = Finished (Some deniedError)
         {| rateLimited := false;
            currentToken := currentToken start;
            pager := pager start;
            trace := trace start ++ [EvNextPage (pg_token (pager start))] |}.
Proof.
  assert (Hs : err_Error deniedError <> noMoreItems) by discriminate.
  assert (Hu : err_status deniedError <> Some Unauthenticated)
    by discriminate.
  refine (conj eq_refl (conj Hs (conj eq_refl (conj Hu _)))).
  exact (other_error_surfaces insertId marshal options start deniedError
           [fun _ => Page [e1] "t9"] eq_refl Hs eq_refl Hu).
Defined.

Lemma fetch_loop_terminates_witness :
  Forall (fun p : list Entry * string => snd p <> EmptyString)
    [([e1; e2], "t1"%string); ([e3], "t2"%string)]
  /\ (exists st,
        fetchAndProcessLogs insertId marshal options
          (map (fun p _ => Page (fst p) (snd p))
             [([e1; e2], "t1"%string); ([e3], "t2"%string)]
             ++ (fun _ => Page [e4] EmptyString) :: [fun _ => Page [e1] "t9"])
        = Finished None st
        /\ length (requested (trace st)) = 3%nat
        /\ slept (trace st) = [])
  /\ loop insertId marshal options
       ((fun _ => Failed canceledError) :: [fun _ => Page [e1] "t9"]) start
     = Finished None
         {| rateLimited := rateLimited start;
            currentToken := currentToken start;
            pager := pager start;
            trace := trace start ++ [EvNextPage (pg_token (pager start))] |}
  /\ loop insertId marshal options
       ((fun _ => Failed doneError) :: [fun _ => Page [e1] "t9"]) start
     = Finished None
         {| rateLimited := rateLimited start;
            currentToken := currentToken start;
            pager := pager start;
            trace := trace start ++ [EvNextPage (pg_token (pager start))] |}.
Proof.
  assert (Hpages : Forall (fun p : list Entry * string => snd p <> EmptyString)
                     [([e1; e2], "t1"%string); ([e3], "t2"%string)])
    by (repeat constructor; discriminate).
  destruct (fetch_loop_terminates insertId marshal options)
    as (Hdone & Hstop).
  refine (conj Hpages (conj _ (conj _ _))).
  - exact (Hdone _ [e4] [fun _ => Page [e1] "t9"] Hpages).
  - exact (Hstop start canceledError [fun _ => Page [e1] "t9"]
             (or_introl eq_refl)).
  - exact (Hstop start doneError [fun _ => Page [e1] "t9"]
             (or_intror eq_refl)).
Defined.

Lemma pages_printed_in_order_witness :
  Forall (fun p : list Entry * string => snd p <> EmptyString)
    [([e1; e2], "t1"%string); ([e3], "t2"%string)]
  /\ exists st,
       fetchAndProcessLogs insertId marshal options
         (map (fun p _ => Page (fst p) (snd p))
            [([e1; e2], "t1"%string); ([e3], "t2"%string)]
            ++ (fun _ => Page [e4] EmptyString) :: [])
       = Finished None st
       /\ stdout (trace st) = ["{1}"; "{3}"; "{4}"]%string
       /\ requested (trace st) = [EmptyString; "t1"; "t2"]%string.
Proof.
  assert (Hpages : Forall (fun p : list Entry * string => snd p <> EmptyString)
                     [([e1; e2], "t1"%string); ([e3], "t2"%string)])
    by (repeat constructor; discriminate).
  split; [exact Hpages |].
  destruct (pages_printed_in_order insertId marshal options
              [([e1; e2], "t1"%string); ([e3], "t2"%string)] [e4] [] Hpages)
    as (st & Hrun & Hout & Hreq & _).
  exists st. split; [exact Hrun | split; [exact Hout | exact Hreq]].
Defined.

Lemma quota_line_needs_both_values_witness :
  In (EvLog (LogRateLimitQuota "ReadRequestsPerMinutePerProject" "60"))
     (snd (handleRateLimitError quotaError false))
  /\ exists apiErr,
       err_APIError quotaError = Some apiErr
       /\ Metadata apiErr !! "quota_limit"%string
          = Some "ReadRequestsPerMinutePerProject"%string
       /\ Metadata apiErr !! "quota_limit_value"%string = Some "60"%string.
Proof.
  assert (Hin : In (EvLog (LogRateLimitQuota
                             "ReadRequestsPerMinutePerProject" "60"))
                  (snd (handleRateLimitError quotaError false)))
    by (left; reflexivity).
  split; [exact Hin |].
  pose proof (quota_line_needs_both_values quotaError false) as Hq.
  destruct (handleRateLimitError quotaError false) as [limited evs].
  destruct Hq as (_ & _ & _ & Hquota & _).
  exact (proj2 (proj2 (proj2 (Hquota _ _ Hin)))).
Defined.

End FetchLoopRuns.

(** ** The query builder on every input *)

Module QueryBuilderEdges.
Import Go Regexp Cmd Facts TextFacts Fixture.

(** *** A line feed blocks the freshness pattern *)

Lemma noNewline_cons c (s : string) :
  noNewline (String c s) = negb (Ascii.eqb c newline) && noNewline s.
Proof. reflexivity. Qed.

Lemma rep_keeps {R} cl (s : string) pos (k : nat -> string -> option R) :
  in_class cl newline = false ->
  noNewline s = false ->
  (forall p u, noNewline u = false -> k p u = None) ->
  rep cl s pos k = None.
Proof.
  intros Hcl. revert pos.
  induction s as [|c s IH]; intros pos Hs Hk; [discriminate |].
  cbn [rep]. destruct (in_class cl c) eqn:Hc; [| now apply Hk].
  rewrite IH; [now apply Hk | | exact Hk].
  rewrite noNewline_cons in Hs.
  destruct (Ascii.eqb_spec c newline) as [-> | _]; [congruence |].
  exact Hs.
Qed.

(** A pattern whose classes exclude the line feed cannot get past one:
    a continuation that fails wherever a line feed is left is never
    satisfied. *)
Section Blocked.
Context {R : Type} (k : mstate -> option R).
Hypothesis k_blocked :
  forall st, noNewline (m_rest st) = false -> k st = None.

Lemma rmatch_one_blocked cl st :
  in_class cl newline = false ->
  noNewline (m_rest st) = false ->
  rmatch (ReOne cl) st k = None.
Proof.
  intros Hcl Hst. rewrite rmatch_one.
  destruct (m_rest st) as [|c u]; [reflexivity |].
  destruct (in_class cl c) eqn:Hc; [| reflexivity].
  apply k_blocked. cbn [m_rest]. rewrite noNewline_cons in Hst.
  destruct (Ascii.eqb_spec c newline) as [-> | _]; [congruence | exact Hst].
Qed.

Lemma rmatch_star_blocked cl st :
  in_class cl newline = false ->
  noNewline (m_rest st) = false ->
  rmatch (ReStar cl) st k = None.
Proof.
  intros Hcl Hst. cbn [rmatch].
  apply rep_keeps; [exact Hcl | exact Hst |].
  intros p u Hu. now apply k_blocked.
Qed.

Lemma rmatch_plus_blocked cl st :
  in_class cl newline = false ->
  noNewline (m_rest st) = false ->
  rmatch (RePlus cl) st k = None.
Proof.
  intros Hcl Hst. cbn [rmatch].
  destruct (m_rest st) as [|c u]; [reflexivity |].
  destruct (in_class cl c) eqn:Hc; [| reflexivity].
  apply rep_keeps; [exact Hcl | |].
  - rewrite noNewline_cons in Hst.
    destruct (Ascii.eqb_spec c newline) as [-> | _]; [congruence | exact Hst].
  - intros p v Hv. now apply k_blocked.
Qed.

Lemma rmatch_end_blocked st :
  noNewline (m_rest st) = false -> rmatch ReEndText st k = None.
Proof. intros Hst. rewrite rmatch_end. now destruct (m_rest st). Qed.
End Blocked.

Lemma freshnessRe_blocked {R} (s : string) (k : mstate -> option R) :
  noNewline s = false ->
  rmatch freshnessRe (MState 0 s ∅) k = None.
Proof.
  intros Hs. unfold freshnessRe.
  rewrite rmatch_cat, rmatch_begin. cbn [m_pos Nat.eqb].
  rewrite rmatch_cat, rmatch_quest.
  assert (Hrest : forall st, noNewline (m_rest st) = false ->
            rmatch (ReCat (ReCapture 2 (ReStar ClAnyNotNL)) ReEndText) st k
            = None).
  { intros st Hst. rewrite rmatch_cat, rmatch_capture.
    apply rmatch_star_blocked; [| reflexivity | exact Hst].
    intros st' Hst'. now apply rmatch_end_blocked. }
  rewrite (Hrest (MState 0 s ∅) Hs).
  rewrite rmatch_cat, rmatch_capture.
  rewrite rmatch_plus_blocked; [reflexivity | | reflexivity | exact Hs].
  intros st Hst. apply rmatch_one_blocked; [| reflexivity | exact Hst].
  exact Hrest.
Qed.

Lemma search_late n (rest : string) : forall pos,
  search freshnessRe n (S pos) rest = [].
Proof.
  induction rest as [|c rest IH]; intros pos; cbn [search];
    unfold freshnessRe at 1; rewrite rmatch_cat, rmatch_begin;
    cbn [m_pos Nat.eqb]; [reflexivity | apply IH].
Qed.

Lemma find_blocked (s : string) :
  noNewline s = false -> FindStringSubmatch freshnessRe 2 s = [].
Proof.
  intros Hs. unfold FindStringSubmatch.
  destruct s as [|c s]; [discriminate |].
  cbn [search]. rewrite (freshnessRe_blocked _ _ Hs). apply search_late.
Qed.

Section WithStd.
Context `{Std}.

(** X6.  [parseFreshness] panics, on the index of the missing submatch,
    exactly when its input holds a line feed; on every other input it
    returns. *)
Theorem parseFreshness_panics_on_line_feed (s : string) :
  (noNewline s = false -> parseFreshness s = Panics "index out of range")
  /\ (noNewline s = true -> exists d e, parseFreshness s = Returns (d, e)).
Proof.
  split; [| apply parseFreshness_returns].
  intros Hs. unfold parseFreshness.
  destruct s as [|c s]; [discriminate |].
  cbn [String.eqb]. now rewrite (find_blocked _ Hs).
Qed.

(** With both instants set, the filter built mentions the timestamp. *)
Lemma buildFilter_mentions_timestamp (from to : Time) (userFilter : string) :
  IsZero from = false -> IsZero to = false ->
  forallb_string isASCII userFilter = true ->
  forallb_string plainChar (FormatRFC3339 from) = true ->
  forallb_string plainChar (FormatRFC3339 to) = true ->
  buildFilter from to userFilter <> EmptyString
  /\ Contains (ToLower (buildFilter from to userFilter)) "timestamp" = true.
Proof.
  intros Hf Ht Hu Hpf Hpt. unfold buildFilter, Quote.
  rewrite Hf, Ht, Hpf, Hpt. cbn [negb andb].
  set (tail := " >= " +:+ quoted (FormatRFC3339 from)
                 +:+ " AND timestamp <= " +:+ quoted (FormatRFC3339 to)).
  assert (Htail : forallb_string isASCII tail = true).
  { unfold tail, quoted.
    rewrite !forallb_string_append. cbn [forallb_string].
    rewrite !forallb_string_append. cbn [forallb_string].
    rewrite (plain_isASCII _ Hpf), (plain_isASCII _ Hpt). reflexivity. }
  change ("timestamp >= " +:+ quoted (FormatRFC3339 from)
            +:+ " AND timestamp <= " +:+ quoted (FormatRFC3339 to))
    with (EmptyString +:+ "timestamp" +:+ tail).
  replace (String.eqb (EmptyString +:+ "timestamp" +:+ tail) EmptyString)
    with false by reflexivity.
  destruct userFilter as [|c u] eqn:Hfilter.
  - cbn [String.eqb]. split; [discriminate |].
    now apply ToLower_mentions_timestamp.
  - cbn [String.eqb]. split; [discriminate |].
    rewrite append_nil_l.
    replace ("(" +:+ String c u +:+ ") AND " +:+ "timestamp" +:+ tail)
      with (("(" +:+ String c u +:+ ") AND ") +:+ "timestamp" +:+ tail)
      by (rewrite !append_assoc; reflexivity).
    apply ToLower_mentions_timestamp; [| exact Htail].
    rewrite !forallb_string_append, Hu. reflexivity.
Qed.

(** The request of [Run] once the time window is known. *)
Lemma runRequest_built (now now' : Time) (projectId order : string)
    (cmd : Flags) (args : list string) from to :
  projectId <> EmptyString ->
  determineTimeWindow now cmd = Returns (from, to, None) ->
  runRequest now now' projectId order cmd args
  = Returns (inr
      {| Logadmin.ResourceNames := [Logadmin.clientParent projectId];
         Logadmin.Filter :=
           Logadmin.defaultTimestampFilter now'
             (buildFilter from to
                (match args with a :: _ => a | [] => EmptyString end));
         Logadmin.OrderBy :=
           if String.eqb order "desc" then "timestamp desc" else EmptyString;
         Logadmin.PageSize := 1000 |}).
Proof.
  intros Hp Hw. unfold runRequest.
  rewrite eqb_empty, (nonEmpty_true projectId Hp), Hw.
  cbn [negb mbind Outcome_bind]. unfold Logadmin.listLogEntriesRequest.
  now rewrite applyOptions_entriesOptions.
Qed.

(** X7.  [determineTimeWindow] panics exactly when freshness holds a
    line feed and neither from nor to is given.  Freshness given together
    with from or to is rejected before any of the three is looked into,
    whatever they hold. *)
Theorem determineTimeWindow_panics (now : Time) (cmd : Flags) :
  ((exists msg, determineTimeWindow now cmd = Panics msg)
   <-> noNewline (flag_freshness cmd) = false
       /\ flag_from cmd = EmptyString /\ flag_to cmd = EmptyString)
  /\ (flag_freshness cmd <> EmptyString ->
      flag_from cmd <> EmptyString \/ flag_to cmd <> EmptyString ->
      determineTimeWindow now cmd
      = Returns (zeroTime, zeroTime,
                 Some "--freshness cannot be used together with --from or --to")).
Proof.
  destruct cmd as [f a b]. cbn [flag_freshness flag_from flag_to].
  unfold determineTimeWindow. cbn [flag_freshness flag_from flag_to].
  split.
  - destruct (noNewline f) eqn:Hnl.
    + split; [| intros (Hx & _); discriminate Hx].
      intros [msg Hrun]. exfalso.
      destruct (nonEmpty f); [destruct (nonEmpty a || nonEmpty b) |];
        try discriminate.
      * destruct (parseFreshness_returns f Hnl) as (d & e & Hp).
        rewrite Hp in Hrun. cbn in Hrun. now destruct e.
      * destruct (nonEmpty a && nonEmpty b).
        -- destruct (ParseRFC3339 a) as [? [?|]];
             [discriminate | destruct (ParseRFC3339 b) as [? [?|]]];
             discriminate.
        -- destruct (negb (nonEmpty a) && negb (nonEmpty b)); discriminate.
    + assert (Hf : nonEmpty f = true) by (now destruct f).
      rewrite Hf.
      assert (Hpanic : parseFreshness f = Panics "index out of range").
      { unfold parseFreshness. destruct f as [|c f]; [discriminate |].
        cbn [String.eqb]. now rewrite (find_blocked _ Hnl). }
      rewrite Hpanic. cbn [mbind Outcome_bind].
      destruct a as [|ca a]; destruct b as [|cb b]; cbn [nonEmpty orb].
      * split; [auto | eauto].
      * split; [intros [msg Hx]; discriminate | intros (_ & _ & Hx); discriminate].
      * split; [intros [msg Hx]; discriminate | intros (_ & Hx & _); discriminate].
      * split; [intros [msg Hx]; discriminate | intros (_ & Hx & _); discriminate].
  - intros Hf Hab. rewrite (nonEmpty_true f Hf).
    replace (nonEmpty a || nonEmpty b) with true; [reflexivity |].
    symmetry. apply orb_true_iff.
    destruct Hab as [Ha | Hb]; [left | right]; now apply nonEmpty_true.
Qed.

(** X8.  The filter built is empty exactly when there is no user
    filter and an instant of the window is zero. *)
Theorem buildFilter_empty_iff (from to : Time) (userFilter : string) :
  buildFilter from to userFilter = EmptyString
  <-> userFilter = EmptyString
      /\ (IsZero from = true \/ IsZero to = true).
Proof.
  unfold buildFilter.
  destruct (IsZero from), (IsZero to); cbn [negb andb String.eqb];
    try (split; [intros ->; auto | now intros [-> _]]).
  set (timeFilter := "timestamp >= " +:+ Quote (FormatRFC3339 from)
                       +:+ " AND timestamp <= " +:+ Quote (FormatRFC3339 to)).
  replace (String.eqb timeFilter EmptyString) with false by reflexivity.
  destruct userFilter as [|c u]; cbn [String.eqb].
  - split; [discriminate | intros [_ [Hx | Hx]]; discriminate].
  - split; [discriminate | intros [Hx _]; discriminate].
Qed.

(** X9.  With a window whose two instants are set and a user filter in
    ASCII, the request of [Run] carries the filter of [buildFilter] as it
    is: the vendored client adds no default bound, because the filter
    mentions the timestamp. *)
Theorem explicit_window_keeps_filter (now now' : Time)
    (projectId order : string) (cmd : Flags) (args : list string)
    (from to : Time) :
  let userFilter := match args with a :: _ => a | [] => EmptyString end in
  projectId <> EmptyString ->
  determineTimeWindow now cmd = Returns (from, to, None) ->
  IsZero from = false -> IsZero to = false ->
  forallb_string isASCII userFilter = true ->
  forallb_string plainChar (FormatRFC3339 from) = true ->
  forallb_string plainChar (FormatRFC3339 to) = true ->
  exists req,
    runRequest now now' projectId order cmd args = Returns (inr req)
    /\ Logadmin.Filter req = buildFilter from to userFilter
    /\ Logadmin.defaultTimestampFilter now' (buildFilter from to userFilter)
       = buildFilter from to userFilter.
Proof.
  intros userFilter Hp Hw Hf Ht Hu Hpf Hpt.
  destruct (buildFilter_mentions_timestamp from to userFilter Hf Ht Hu Hpf Hpt)
    as [Hne Hc].
  pose proof (default_keeps now' _ Hne Hc) as Hkeep.
  eexists. split; [apply (runRequest_built now now' projectId order cmd args
                            from to Hp Hw) |].
  cbn [Logadmin.Filter]. fold userFilter. auto.
Qed.

(** X10.  When from and to both parse but one of them is the zero
    instant, the window is accepted and then ignored: [buildFilter]
    returns the user filter alone and the request carries the default
    filter of the client for it. *)
Theorem zero_instant_window_ignored (now now' : Time)
    (projectId order : string) (cmd : Flags) (args : list string)
    (from to : Time) :
  let userFilter := match args with a :: _ => a | [] => EmptyString end in
  projectId <> EmptyString ->
  flag_freshness cmd = EmptyString ->
  flag_from cmd <> EmptyString -> flag_to cmd <> EmptyString ->
  ParseRFC3339 (flag_from cmd) = (from, None) ->
  ParseRFC3339 (flag_to cmd) = (to, None) ->
  IsZero from = true \/ IsZero to = true ->
  determineTimeWindow now cmd = Returns (from, to, None)
  /\ buildFilter from to userFilter = userFilter
  /\ exists req,
       runRequest now now' projectId order cmd args = Returns (inr req)
       /\ Logadmin.Filter req
          = Logadmin.defaultTimestampFilter now' userFilter.
Proof.
  intros userFilter Hp Hfresh Hfrom Hto Hpf Hpt Hzero.
  assert (Hw : determineTimeWindow now cmd = Returns (from, to, None)).
  { unfold determineTimeWindow.
    rewrite Hfresh, (nonEmpty_true _ Hfrom), (nonEmpty_true _ Hto), Hpf, Hpt.
    reflexivity. }
  assert (Hb : buildFilter from to userFilter = userFilter).
  { unfold buildFilter.
    destruct Hzero as [-> | ->]; cbn [negb andb]; [reflexivity |].
    now rewrite andb_false_r. }
  split; [exact Hw | split; [exact Hb |]].
  eexists. split; [apply (runRequest_built now now' projectId order cmd args
                            from to Hp Hw) |].
  cbn [Logadmin.Filter]. fold userFilter. now rewrite Hb.
Qed.

(** X11.  [Run] reports a missing project before it looks at the time
    flags, and an error of the time flags before it builds a request.
    The request it builds names the project as the one resource
    (qualified by [projects/] when it holds no slash), asks for pages of
    1000, and is newest first exactly when the order is the string
    [desc]; any other order gives the default order of the service. *)
Theorem runRequest_shape (now now' : Time) (projectId order : string)
    (cmd : Flags) (args : list string) :
  (projectId = EmptyString ->
   runRequest now now' projectId order cmd args
   = Returns (inl ("Error: required flag " +:+ quoted "project"
                     +:+ " not set")))
  /\ (projectId <> EmptyString ->
      forall from to e,
        determineTimeWindow now cmd = Returns (from, to, Some e) ->
        runRequest now now' projectId order cmd args = Returns (inl e))
  /\ (projectId <> EmptyString ->
      forall from to,
        determineTimeWindow now cmd = Returns (from, to, None) ->
        exists req,
          runRequest now now' projectId order cmd args = Returns (inr req)
          /\ Logadmin.ResourceNames req = [Logadmin.clientParent projectId]
          /\ Logadmin.PageSize req = 1000
          /\ (order = "desc"%string ->
              Logadmin.OrderBy req = "timestamp desc"%string)
          /\ (order <> "desc"%string ->
              Logadmin.OrderBy req = EmptyString)).
Proof.
  split; [| split].
  - intros ->. reflexivity.
  - intros Hp from to e Hw. unfold runRequest.
    now rewrite eqb_empty, (nonEmpty_true projectId Hp), Hw.
  - intros Hp from to Hw. eexists.
    split; [apply (runRequest_built now now' projectId order cmd args
                     from to Hp Hw) |].
    cbn [Logadmin.ResourceNames Logadmin.PageSize Logadmin.OrderBy].
    split; [reflexivity | split; [reflexivity | split]].
    + intros ->. reflexivity.
    + intros Ho. apply String.eqb_neq in Ho. now rewrite Ho.
Qed.

End WithStd.

(** *** On concrete inputs *)

Import MoreFixture.

Lemma parseFreshness_panics_on_line_feed_witness :
  noNewline lineFeed = false
  /\ parseFreshness lineFeed = Panics "index out of range"
  /\ noNewline "1h" = true
  /\ exists d e, parseFreshness "1h" = Returns (d, e).
Proof.
  refine (conj eq_refl (conj _ (conj eq_refl _))).
  - exact (proj1 (parseFreshness_panics_on_line_feed (H := std) lineFeed)
             eq_refl).
  - exact (proj2 (parseFreshness_panics_on_line_feed (H := std) "1h")
             eq_refl).
Defined.

Lemma determineTimeWindow_panics_witness :
  (exists msg, determineTimeWindow jan2 lineFeedFlags = Panics msg)
  /\ flag_freshness lineFeedWithFrom <> EmptyString
  /\ determineTimeWindow jan2 lineFeedWithFrom
     = Returns (zeroTime, zeroTime,
                Some "--freshness cannot be used together with --from or --to").
Proof.
  assert (Hf : flag_freshness lineFeedWithFrom <> EmptyString)
    by discriminate.
  refine (conj _ (conj Hf _)).
  - exact (proj2 (proj1 (determineTimeWindow_panics (H := std) jan2
                           lineFeedFlags))
             (conj eq_refl (conj eq_refl eq_refl))).
  - apply (proj2 (determineTimeWindow_panics (H := std) jan2
                    lineFeedWithFrom) Hf).
    left; discriminate.
Defined.

Lemma buildFilter_empty_iff_witness :
  buildFilter zeroTime jan2 EmptyString = EmptyString
  /\ (IsZero jan1 = true \/ IsZero jan2 = true -> False).
Proof.
  split.
  - exact (proj2 (buildFilter_empty_iff (H := std) zeroTime jan2 EmptyString)
             (conj eq_refl (or_introl eq_refl))).
  - intros [Hz | Hz]; discriminate.
Defined.

Lemma explicit_window_keeps_filter_witness :
  determineTimeWindow jan2 dayWindow = Returns (jan1, jan2, None)
  /\ exists req,
       runRequest jan2 jan2 "my-project" "desc" dayWindow
         ["severity>=ERROR"%string]
       = Returns (inr req)
       /\ Logadmin.Filter req = buildFilter jan1 jan2 "severity>=ERROR"
       /\ Logadmin.defaultTimestampFilter jan2
            (buildFilter jan1 jan2 "severity>=ERROR")
          = buildFilter jan1 jan2 "severity>=ERROR".
Proof.
  split; [reflexivity |].
  exact (explicit_window_keeps_filter (H := std) jan2 jan2 "my-project"
           "desc" dayWindow ["severity>=ERROR"%string] jan1 jan2
           ltac:(discriminate) eq_refl eq_refl eq_refl eq_refl eq_refl
           eq_refl).
Defined.

Lemma zero_instant_window_ignored_witness :
  ParseRFC3339 (flag_from zeroWindow) = (zeroTime, None)
  /\ ParseRFC3339 (flag_to zeroWindow) = (jan2, None)
  /\ determineTimeWindow jan2 zeroWindow = Returns (zeroTime, jan2, None)
  /\ buildFilter zeroTime jan2 "severity>=ERROR" = "severity>=ERROR"%string
  /\ exists req,
       runRequest jan2 jan2 "my-project" "desc" zeroWindow
         ["severity>=ERROR"%string]
       = Returns (inr req)
       /\ Logadmin.Filter req
          = Logadmin.defaultTimestampFilter jan2 "severity>=ERROR".
Proof.
  refine (conj eq_refl (conj eq_refl _)).
  exact (zero_instant_window_ignored (H := std) jan2 jan2 "my-project"
           "desc" zeroWindow ["severity>=ERROR"%string] zeroTime jan2
           ltac:(discriminate) eq_refl ltac:(discriminate)
           ltac:(discriminate) eq_refl eq_refl (or_introl eq_refl)).
Defined.

Lemma runRequest_shape_witness :
  runRequest jan2 jan2 EmptyString "desc" lineFeedFlags []
  = Returns (inl ("Error: required flag " +:+ quoted "project"
                    +:+ " not set"))
  /\ runRequest jan2 jan2 "my-project" "desc" lineFeedWithFrom []
     = Returns (inl "--freshness cannot be used together with --from or --to"%string)
  /\ exists req,
       runRequest jan2 jan2 "my-project" "DESC" dayWindow [] = Returns (inr req)
       /\ Logadmin.ResourceNames req = ["projects/my-project"%string]
       /\ Logadmin.PageSize req = 1000
       /\ Logadmin.OrderBy req = EmptyString.
Proof.
  assert (Hp : "my-project"%string <> EmptyString) by discriminate.
  refine (conj _ (conj _ _)).
  - exact (proj1 (runRequest_shape (H := std) jan2 jan2 EmptyString "desc"
                    lineFeedFlags []) eq_refl).
  - exact (proj1 (proj2 (runRequest_shape (H := std) jan2 jan2 "my-project"
                           "desc" lineFeedWithFrom [])) Hp
             zeroTime zeroTime _ eq_refl).
  - destruct (proj2 (proj2 (runRequest_shape (H := std) jan2 jan2
                              "my-project" "DESC" dayWindow [])) Hp
                jan1 jan2 eq_refl)
      as (req & Hrun & Hres & Hsize & _ & Hasc).
    exists req.
    refine (conj Hrun (conj Hres (conj Hsize _))).
    apply Hasc. discriminate.
Defined.

End QueryBuilderEdges.

(** ** The vendored client *)

Module LogadminSpec.
Import Go Logadmin LogadminClient Facts TextFacts.

(** *** Options *)

Lemma applyOptions_snoc parent opts opt :
  applyOptions parent (opts ++ [opt]) = set opt (applyOptions parent opts).
Proof. unfold applyOptions. now rewrite fold_left_app. Qed.

Lemma fold_set_app opts1 opts2 req :
  fold_left (fun r o => set o r) (opts1 ++ opts2) req
  = fold_left (fun r o => set o r) opts2
      (fold_left (fun r o => set o r) opts1 req).
Proof. apply fold_left_app. Qed.

Lemma fold_set_Filter opts : forall req,
  forallb (fun o => negb (isFilter o)) opts = true ->
  Filter (fold_left (fun r o => set o r) opts req) = Filter req.
Proof.
  induction opts as [|o opts IH]; intros req Hopts; [reflexivity |].
  cbn [forallb] in Hopts. apply andb_true_iff in Hopts as [Ho Hopts].
  cbn [fold_left]. rewrite (IH _ Hopts). now destruct o.
Qed.

Lemma fold_set_ResourceNames opts : forall req,
  forallb (fun o => negb (setsResourceNames o)) opts = true ->
  ResourceNames (fold_left (fun r o => set o r) opts req)
  = ResourceNames req.
Proof.
  induction opts as [|o opts IH]; intros req Hopts; [reflexivity |].
  cbn [forallb] in Hopts. apply andb_true_iff in Hopts as [Ho Hopts].
  cbn [fold_left]. rewrite (IH _ Hopts). now destruct o.
Qed.

Lemma fold_set_OrderBy opts : forall req,
  OrderBy (fold_left (fun r o => set o r) opts req)
  = if existsb isNewestFirst opts then "timestamp desc"%string
    else OrderBy req.
Proof.
  induction opts as [|o opts IH]; intros req; [reflexivity |].
  cbn [fold_left existsb]. rewrite IH.
  destruct o; cbn [isNewestFirst orb set OrderBy]; try reflexivity.
  now destruct (existsb isNewestFirst opts).
Qed.

(** X13.  The filter of the assembled request is that of the last
    Filter option, whatever options come before it or after it, and is
    empty when there is no Filter option. *)
Theorem filter_last_wins (parent : string) :
  (forall opts,
      forallb (fun o => negb (isFilter o)) opts = true ->
      Filter (applyOptions parent opts) = EmptyString)
  /\ (forall opts1 f opts2,
      forallb (fun o => negb (isFilter o)) opts2 = true ->
      Filter (applyOptions parent (opts1 ++ filter f :: opts2)) = f).
Proof.
  split.
  - intros opts Hopts. unfold applyOptions. now rewrite fold_set_Filter.
  - intros opts1 f opts2 Hopts. unfold applyOptions.
    rewrite fold_set_app. cbn [fold_left]. now rewrite fold_set_Filter.
Qed.

(** X14.  The resource names of the assembled request are the parent
    of the client unless an option sets them; then they are those of the
    last such option, each project id under [projects/] (none at all for
    an empty list of ids).  The request is newest first exactly when a
    NewestFirst option occurs; no option brings the default order back. *)
Theorem resources_and_order (parent : string) :
  (forall opts,
      forallb (fun o => negb (setsResourceNames o)) opts = true ->
      ResourceNames (applyOptions parent opts) = [parent])
  /\ (forall opts1 pids opts2,
      forallb (fun o => negb (setsResourceNames o)) opts2 = true ->
      ResourceNames (applyOptions parent (opts1 ++ projectIDs pids :: opts2))
      = map (fun v => "projects/" +:+ v) pids)
  /\ (forall opts1 rns opts2,
      forallb (fun o => negb (setsResourceNames o)) opts2 = true ->
      ResourceNames (applyOptions parent (opts1 ++ resourceNames rns :: opts2))
      = rns)
  /\ (forall opts,
      OrderBy (applyOptions parent opts)
      = if existsb isNewestFirst opts then "timestamp desc"%string
        else EmptyString).
Proof.
  refine (conj _ (conj _ (conj _ _))).
  - intros opts Hopts. unfold applyOptions.
    now rewrite fold_set_ResourceNames.
  - intros opts1 pids opts2 Hopts. unfold applyOptions.
    rewrite fold_set_app. cbn [fold_left].
    now rewrite fold_set_ResourceNames.
  - intros opts1 rns opts2 Hopts. unfold applyOptions.
    rewrite fold_set_app. cbn [fold_left].
    now rewrite fold_set_ResourceNames.
  - intros opts. unfold applyOptions. now rewrite fold_set_OrderBy.
Qed.

(** *** The client *)

Lemma projects_has_slash (p : string) :
  Contains ("projects/" +:+ p) "/" = true.
Proof. apply Contains_spec. now exists "projects"%string, p. Qed.

(** X12.  [NewClient] returns no client and the error when dialing
    fails.  Otherwise the client is open and its parent always names a
    collection: a parent with a slash is kept, one without is put under
    [projects/]; qualifying a qualified parent changes nothing. *)
Theorem NewClient_parent :
  (forall e parent, NewClient (Some e) parent = (None, Some e))
  /\ (forall parent,
      exists c,
        NewClient None parent = (Some c, None)
        /\ closed c = false
        /\ LogadminClient.parent c = clientParent parent
        /\ Contains (LogadminClient.parent c) "/" = true
        /\ (Contains parent "/" = true -> LogadminClient.parent c = parent)
        /\ NewClient None (LogadminClient.parent c) = (Some c, None)).
Proof.
  split; [reflexivity |].
  intros parent. unfold NewClient, clientParent.
  destruct (Contains parent "/") eqn:Hp; cbn [negb]; eexists;
    (split; [reflexivity |]); cbn [closed LogadminClient.parent].
  - rewrite Hp. cbn [negb]. auto 10.
  - rewrite projects_has_slash. cbn [negb].
    repeat split; try reflexivity. discriminate.
Qed.

(** X16.  Of any number of calls of [Close] on an open client only the
    first closes the underlying client and returns its result; the client
    is closed afterwards, also when that result is an error, and every
    later call returns nil.  On a closed client no call does anything. *)
Theorem Close_once (c : Client) :
  (closed c = false ->
   forall r rest,
     closeAll (r :: rest) c
     = (r :: map (fun _ => None) rest,
        {| LogadminClient.parent := LogadminClient.parent c;
           closed := true |},
        1%nat))
  /\ (closed c = true ->
      forall results,
        closeAll results c = (map (fun _ => None) results, c, 0%nat)).
Proof.
  assert (Hclosed : forall results c', closed c' = true ->
            closeAll results c' = (map (fun _ => None) results, c', 0%nat)).
  { induction results as [|r results IH]; intros c' Hc; [reflexivity |].
    cbn [closeAll map]. unfold Close. rewrite Hc, (IH c' Hc). reflexivity. }
  split; [| intros Hc results; now apply Hclosed].
  intros Hc r rest. cbn [closeAll]. unfold Close. rewrite Hc.
  now rewrite Hclosed.
Qed.

(** *** One fetch *)

Section Fetch.
Context {Inner Item : Type}.
Context (innerNext : Inner -> (Item + string) * Inner).
Context (innerRemaining : Inner -> Z).
Context (innerToken : Inner -> string).
Context (innerSetPage : Z -> string -> Inner -> Inner).

#[local] Abbreviation fetch :=
  (fetch innerNext innerRemaining innerToken innerSetPage).
#[local] Abbreviation fetchNext := (fetchNext innerNext).

Lemma collect_drains (fuel : nat) : forall e,
  handsOut innerNext innerRemaining ->
  innerRemaining (it e) <= Z.of_nat fuel ->
  exists more e',
    collect (fun e => innerRemaining (it e)) fetchNext fuel e
    = Some (None, e')
    /\ items e' = items e ++ more
    /\ Z.of_nat (length more) = Z.max 0 (innerRemaining (it e))
    /\ innerRemaining (it e') <= 0.
Proof.
  induction fuel as [|fuel IH]; intros e Hh Hfuel.
  - exists [], e. cbn [collect].
    replace (0 <? innerRemaining (it e)) with false
      by (symmetry; apply Z.ltb_ge; lia).
    rewrite app_nil_r. repeat split; cbn; lia.
  - cbn [collect]. destruct (0 <? innerRemaining (it e)) eqn:Hpos.
    + apply Z.ltb_lt in Hpos.
      destruct (Hh (it e) Hpos) as (x & i' & Hnext & Hrem).
      unfold LogadminClient.fetchNext at 1. rewrite Hnext.
      destruct (IH {| it := i'; items := items e ++ [x] |} Hh)
        as (more & e' & Hrun & Hitems & Hlen & Hdone).
      { cbn [it]. lia. }
      exists (x :: more), e'. rewrite Hrun. cbn [it items] in *.
      repeat split; [| | exact Hdone].
      * now rewrite Hitems, <- app_assoc.
      * cbn [length]. lia.
    + apply Z.ltb_ge in Hpos. exists [], e.
      rewrite app_nil_r. repeat split; cbn; lia.
Qed.


End Fetch.

Section Default.
Context `{Std}.

(** X15.  The default filter is never empty, and for ASCII text it
    settles: applied to its own result, at any later time, it returns
    that result. *)
Theorem defaultTimestampFilter_settles (now1 now2 : Time) (f : string) :
  defaultTimestampFilter now1 f <> EmptyString
  /\ (forallb_string isASCII f = true ->
      forallb_string isASCII
        (FormatRFC3339 (UTC (Add now1 (- (24 * Hour))))) = true ->
      defaultTimestampFilter now2 (defaultTimestampFilter now1 f)
      = defaultTimestampFilter now1 f).
Proof.
  unfold defaultTimestampFilter at 1 3 4. rewrite wrap64_day.
  set (stamp := FormatRFC3339 (UTC (Add now1 (- (24 * Hour))))).
  destruct f as [|c f'] eqn:Hf.
  - cbn [String.length Nat.eqb]. split; [discriminate |].
    intros _ Hstamp. apply default_keeps; [discriminate |].
    change ("timestamp >= " +:+ quoted stamp)
      with (EmptyString +:+ "timestamp" +:+ " >= " +:+ quoted stamp).
    apply ToLower_mentions_timestamp; [reflexivity |].
    unfold quoted. rewrite forallb_string_append. cbn [forallb_string].
    rewrite forallb_string_append, Hstamp. reflexivity.
  - cbn [String.length Nat.eqb].
    destruct (Contains (ToLower (String c f')) "timestamp") eqn:Hc;
      cbn [negb].
    + split; [discriminate |]. intros _ _.
      apply default_keeps; [discriminate | exact Hc].
    + split; [rewrite append_cons; discriminate |].
      intros Hascii Hstamp. apply default_keeps;
        [rewrite append_cons; discriminate |].
      replace (String c f' +:+ " AND timestamp >= " +:+ quoted stamp)
        with ((String c f' +:+ " AND ") +:+ "timestamp" +:+ " >= "
                +:+ quoted stamp)
        by (rewrite append_assoc; reflexivity).
      apply ToLower_mentions_timestamp.
      * rewrite forallb_string_append, Hascii. reflexivity.
      * unfold quoted. rewrite forallb_string_append. cbn [forallb_string].
        rewrite forallb_string_append, Hstamp. reflexivity.
Qed.

End Default.

(** *** On concrete inputs *)

Import Fixture MoreFixture.

Lemma NewClient_parent_witness :
  NewClient (Some "no credentials"%string) "my-project"
  = (None, Some "no credentials"%string)
  /\ exists c,
       NewClient None "my-project" = (Some c, None)
       /\ LogadminClient.parent c = "projects/my-project"%string
       /\ NewClient None "projects/my-project" = (Some c, None).
Proof.
  split.
  - exact (proj1 NewClient_parent "no credentials"%string
             "my-project"%string).
  - destruct (proj2 NewClient_parent "my-project"%string)
      as (c & Hnew & _ & Hparent & _ & _ & Hagain).
    exists c. refine (conj Hnew (conj Hparent _)).
    rewrite Hparent in Hagain. exact Hagain.
Defined.

Lemma filter_last_wins_witness :
  Filter (applyOptions "projects/p" [pageSize 1000; newestFirst]) = EmptyString
  /\ Filter (applyOptions "projects/p"
               ([filter "a"; pageSize 5] ++ filter "b" :: [newestFirst]))
     = "b"%string.
Proof.
  split.
  - exact (proj1 (filter_last_wins "projects/p")
             [pageSize 1000; newestFirst] eq_refl).
  - exact (proj2 (filter_last_wins "projects/p")
             [filter "a"; pageSize 5] "b"%string [newestFirst] eq_refl).
Defined.

Lemma resources_and_order_witness :
  ResourceNames (applyOptions "projects/p" [filter "a"; newestFirst])
  = ["projects/p"%string]
  /\ ResourceNames
       (applyOptions "projects/p"
          ([resourceNames ["folders/f"%string]]
             ++ projectIDs ["x"; "y"]%string :: [filter "a"]))
     = ["projects/x"; "projects/y"]%string
  /\ ResourceNames
       (applyOptions "projects/p"
          ([projectIDs ["x"%string]]
             ++ resourceNames ["folders/f"%string] :: []))
     = ["folders/f"%string]
  /\ OrderBy (applyOptions "projects/p" [newestFirst; filter "a"])
     = "timestamp desc"%string.
Proof.
  destruct (resources_and_order "projects/p")
    as (Hdefault & Hids & Hnames & Horder).
  refine (conj _ (conj _ (conj _ _))).
  - exact (Hdefault [filter "a"; newestFirst] eq_refl).
  - exact (Hids [resourceNames ["folders/f"%string]] ["x"; "y"]%string
             [filter "a"] eq_refl).
  - exact (Hnames [projectIDs ["x"%string]] ["folders/f"%string] []
             eq_refl).
  - exact (Horder [newestFirst; filter "a"]).
Defined.

Lemma defaultTimestampFilter_settles_witness :
  forallb_string isASCII "severity>=ERROR" = true
  /\ defaultTimestampFilter jan2 "severity>=ERROR" <> EmptyString
  /\ defaultTimestampFilter (jan2 + 3600)
       (defaultTimestampFilter jan2 "severity>=ERROR")
     = defaultTimestampFilter jan2 "severity>=ERROR".
Proof.
  destruct (defaultTimestampFilter_settles (H := std) jan2 (jan2 + 3600)
              "severity>=ERROR")
    as (Hne & Hsettles).
  refine (conj eq_refl (conj Hne _)).
  exact (Hsettles eq_refl eq_refl).
Defined.

Lemma Close_once_witness :
  closed openClient = false
  /\ closeAll [Some "connection lost"%string; Some "again"%string; None]
       openClient
     = ([Some "connection lost"%string; None; None],
        {| LogadminClient.parent := "projects/my-project"; closed := true |},
        1%nat).
Proof.
  refine (conj eq_refl _).
  exact (proj1 (Close_once openClient) eq_refl
           (Some "connection lost"%string) [Some "again"%string; None]).
Defined.

Lemma fixture_handsOut : handsOut innerNext remaining.
Proof.
  intros [b t a]. unfold remaining, innerNext. cbn [buf tok atEnd].
  destruct b as [|x rest]; cbn [length]; [lia |].
  intros _. exists x, {| buf := rest; tok := t; atEnd := a |}.
  split; [reflexivity |]. cbn [buf length]. lia.
Qed.


End LogadminSpec.
